(** * The page-load retry state machine of [src/app/pages/basePage.tsx]

    A shallow embedding of [PageComponent] (the retrying loader, its error
    handling and its render dispatch) and of [TenantPageComponent] (the
    tenant-scoped configuration), followed by the properties of both.

    The component's React state is threaded explicitly. What the event loop
    holds for the component (a timer, or the reactions on an aggregate
    promise) is a value of its own, and a turn of the loop is a function on
    the pair. The retry count is a natural number: the loader reads an
    unset counter as 0 and only ever adds one to it. *)

From Stdlib Require Import String Ascii List Arith Lia Bool Relations.
Import ListNotations.
Open Scope string_scope.
Open Scope list_scope.
Open Scope nat_scope.

Set Implicit Arguments.

(** ** Data model *)

(** [const MAX_RETRIES: number = 5]. *)
Definition MAX_RETRIES : nat := 5.

(** [export enum PageErrorType { React, Server }]. *)
Inductive PageErrorType : Type := React | Server.

(** [React.ErrorInfo], the second argument React hands to
  [componentDidCatch]. *)
Record ErrorInfo : Type := { componentStack : string }.

(** The third argument of [handleError] is typed [any]: the loader passes a
  string, [componentDidCatch] passes React's [ErrorInfo]. *)
Inductive Message : Type :=
| Text (s : string)
| Info (i : ErrorInfo).

(** Modelled from the spec: the [PageError] record of ["../components"],
  [{ error: original cause, errorMessage: human text, type: category }];
  it is built by the object literal of [handleError]. *)
Module PageError.
Record t (E : Type) : Type := mk {
  error : E;
  errorMessage : Message;
  type : PageErrorType
}.
End PageError.

(** [interface PageState]: four optional fields, next to the fields [X] a
  concrete page adds ([S extends PageState]). *)
Module PageState.
Record t (E X : Type) : Type := mk {
  pageLoadRetries : option nat;
  isLoading : option bool;
  isError : option bool;
  error : option (PageError.t E);
  page : X
}.
End PageState.

(** What [render] returns: the error page with its [error] property, the
  spinner section, or the page's own [renderPage()]. *)
Inductive View (E X : Type) : Type :=
| ErrorPage (error : option (PageError.t E))
| LoadingSection
| RenderPage (st : PageState.t E X).

Arguments LoadingSection {E X}.
Arguments RenderPage {E} {X} st.
Arguments ErrorPage {E} X error.

Section Page.

Context {E X : Type}.

Local Abbreviation State := (PageState.t E X).
Local Abbreviation PageErr := (PageError.t E).

(** *** Promises

    A promise is known by how it settles: fulfilled or rejected (with a
    reason) at some instant after its creation, or never. *)
Inductive Promise : Type :=
| Resolves (after : nat)
| Rejects (after : nat) (reason : E)
| NeverSettles.

(** The result type of [createLoaders]: [Promise | Promise[] | null]. *)
Inductive Loaders : Type :=
| Null
| One (p : Promise)
| Many (ps : list Promise).

(** How an aggregate promise settles. *)
Inductive Settled : Type :=
| Fulfilled
| Rejected (reason : E)
| Unsettled.

Definition isResolved (p : Promise) : bool :=
  match p with Resolves _ => true | _ => false end.

Definition isRejected (p : Promise) : bool :=
  match p with Rejects _ _ => true | _ => false end.

(** The earliest rejection among the promises; of two rejections at the
    same instant the one earlier in the array is reported. *)
Fixpoint firstRejection (ps : list Promise) : option (nat * E) :=
  match ps with
  | [] => None
  | p :: ps' =>
      match p, firstRejection ps' with
      | Rejects t e, Some (t', e') =>
          if t <=? t' then Some (t, e) else Some (t', e')
      | Rejects t e, None => Some (t, e)
      | _, r => r
      end
  end.

(** [Promise.all]: rejected with the first rejection to occur, fulfilled
    once every promise is fulfilled, pending otherwise. *)
Definition Promise_all (ps : list Promise) : Settled :=
  match firstRejection ps with
  | Some (_, e) => Rejected e
  | None => if forallb isResolved ps then Fulfilled else Unsettled
  end.

(** *** Component state *)

(** Modelled from the spec: [PureComponent.setSingleState] and
    [PureComponent.setMultiState] of ["../components"], the
    framework-managed state updates: the fields named in the call are
    overwritten and every other field of the state is kept. *)
Inductive Assign : Type :=
| PageLoadRetries (n : nat)
| IsLoading (b : bool)
| IsError (b : bool)
| Error (e : PageErr).

Definition setSingleState (a : Assign) (st : State) : State :=
  match a with
  | PageLoadRetries n =>
      PageState.mk (Some n) (PageState.isLoading st) (PageState.isError st)
                   (PageState.error st) (PageState.page st)
  | IsLoading b =>
      PageState.mk (PageState.pageLoadRetries st) (Some b)
                   (PageState.isError st) (PageState.error st)
                   (PageState.page st)
  | IsError b =>
      PageState.mk (PageState.pageLoadRetries st) (PageState.isLoading st)
                   (Some b) (PageState.error st) (PageState.page st)
  | Error e =>
      PageState.mk (PageState.pageLoadRetries st) (PageState.isLoading st)
                   (PageState.isError st) (Some e) (PageState.page st)
  end.

Definition setMultiState (fields : list Assign) (st : State) : State :=
  fold_left (fun s a => setSingleState a s) fields st.

(** The logging sink, [Services.getLoggerService()]. *)
Inductive LogArg : Type :=
| ArgType (t : PageErrorType)
| ArgMessage (m : Message)
| ArgError (e : E).

Inductive LogEntry : Type :=
| LogDebug (msg : string)
| LogError (msg : string) (arg : LogArg).

(** The component and what it has done so far: its React state, the lines
    sent to the logger, the number of calls of [createLoaders], and the
    delays passed to [setTimeout], oldest first. *)
Record World : Type := mkWorld {
  state : State;
  logger : list LogEntry;
  invocations : nat;
  timeouts : list nat
}.

Definition update (f : State -> State) (w : World) : World :=
  mkWorld (f (state w)) (logger w) (invocations w) (timeouts w).

Definition debug (msg : string) (w : World) : World :=
  mkWorld (state w) (logger w ++ [LogDebug msg]) (invocations w)
          (timeouts w).

Definition error (msg : string) (arg : LogArg) (w : World) : World :=
  mkWorld (state w) (logger w ++ [LogError msg arg]) (invocations w)
          (timeouts w).

(** What the event loop holds for the component: nothing, a timer whose
    callback is [loadPageData], or the reactions registered on
    [Promise.all(loaders)]. *)
Inductive Pending : Type :=
| Idle
| Timer (ms : nat)
| AwaitAll (loaders : list Promise).

Definition setTimeout (ms : nat) (w : World) : World * Pending :=
  (mkWorld (state w) (logger w) (invocations w) (timeouts w ++ [ms]),
   Timer ms).

(** *** The page's hooks *)

(** [initializePageState()], abstract: the state a concrete page starts
    with. *)
Variable initializePageState : State.

(** [createLoaders()], overridden by a concrete page; [createLoaders k] is
    what its call number [k] (from 0) returns. *)
Variable createLoaders : nat -> Loaders.

(** *** [PageComponent] *)

(** [initializeState]: [{ ...this.initializePageState(), isLoading: true }]. *)
Definition initializeState : State :=
  PageState.mk (PageState.pageLoadRetries initializePageState)
               (Some true)
               (PageState.isError initializePageState)
               (PageState.error initializePageState)
               (PageState.page initializePageState).

Definition truthy (b : option bool) : bool :=
  match b with Some true => true | _ => false end.

Definition isLoading (st : State) : bool :=
  if truthy (PageState.isLoading st) then true else false.

Definition isError (st : State) : bool :=
  if truthy (PageState.isError st) then true else false.

Definition getRetries (st : State) : nat :=
  match PageState.pageLoadRetries st with
  | Some n => n
  | None => 0
  end.

Definition incrementRetries (st : State) : State :=
  let retries := getRetries st + 1 in
  setSingleState (PageLoadRetries retries) st.

Definition handleError (errorType : PageErrorType) (err : E)
    (errorMessage : Message) (w : World) : World :=
  let w := error "[PageComponent] Handling an error of type: "
                 (ArgType errorType) w in
  let w := error "[PageComponent] " (ArgMessage errorMessage) w in
  let w := error "[PageComponent] " (ArgError err) w in
  update (setMultiState
            [Error (PageError.mk err errorMessage errorType);
             IsError true]) w.

Definition handleServerError (err : E) (errorMessage : string)
    (w : World) : World :=
  handleError Server err (Text errorMessage) w.

Definition componentDidCatch (err : E) (errorInfo : ErrorInfo)
    (w : World) : World :=
  handleError React err (Info errorInfo) w.

Definition render (st : State) : View E X :=
  if isError st then ErrorPage X (PageState.error st)
  else if truthy (PageState.isLoading st) then LoadingSection
  else RenderPage st.

(** The [then] callback of [loadPageData]. *)
Definition onFulfilled (w : World) : World * Pending :=
  (update (setSingleState (IsLoading false)) w, Idle).

(** The [catch] callback of [loadPageData]. *)
Definition onRejected (err : E) (w : World) : World * Pending :=
  let w := debug "[PageComponent] Page data load failed, retrying." w in
  let retries := getRetries (state w) in
  if retries <? MAX_RETRIES then
    let w := update incrementRetries w in
    setTimeout (Nat.pow 2 retries * 100) w
  else
    (handleServerError err "Error loading page data." w, Idle).

(** [loadPageData], up to the registration of the two callbacks. *)
Definition loadPageData (w : World) : World * Pending :=
  let loaders := createLoaders (invocations w) in
  let w := mkWorld (state w) (logger w) (S (invocations w))
                   (timeouts w) in
  match loaders with
  | Null => (update (setSingleState (IsLoading false)) w, Idle)
  | _ =>
      let loaders :=
        match loaders with
        | Many ps => ps
        | One p => [p]
        | Null => []
        end in
      if length loaders =? 0 then
        (update (setSingleState (IsLoading false)) w, Idle)
      else
        (update (setSingleState (IsLoading true)) w, AwaitAll loaders)
  end.

(** Modelled from the spec: the constructor of [PureComponent], which is
    not among the sources, installs [initializeState()] as the state of
    the new instance; the constructor of [PageComponent] then arms a 10 ms
    timer for the first [loadPageData]. *)
Definition construct : World * Pending :=
  setTimeout 10 (mkWorld initializeState [] 0 []).

(** *** The event loop *)

(** One turn of the event loop on the component's pending callback. A
    component with nothing pending, or whose aggregate promise never
    settles, gets no turn. *)
Definition step (c : World * Pending) : option (World * Pending) :=
  let (w, p) := c in
  match p with
  | Idle => None
  | Timer _ => Some (loadPageData w)
  | AwaitAll loaders =>
      match Promise_all loaders with
      | Fulfilled => Some (onFulfilled w)
      | Rejected e => Some (onRejected e w)
      | Unsettled => None
      end
  end.

Fixpoint run (turns : nat) (c : World * Pending) : World * Pending :=
  match turns with
  | 0 => c
  | S n =>
      match step c with
      | Some c' => run n c'
      | None => c
      end
  end.

(** Everything that can happen to a live component: a turn of the event
    loop, a fault of the presentation layer reported by React, or a
    concrete page reporting a server error of its own. *)
Inductive transition : World * Pending -> World * Pending -> Prop :=
| TurnOfLoop c c' :
    step c = Some c' -> transition c c'
| RenderFault err errorInfo w p :
    transition (w, p) (componentDidCatch err errorInfo w, p)
| ServerFault err errorMessage w p :
    transition (w, p) (handleServerError err errorMessage w, p).

Definition reaches : World * Pending -> World * Pending -> Prop :=
  clos_refl_trans_1n _ transition.

End Page.

Arguments Promise E : clear implicits.
Arguments Loaders E : clear implicits.
Arguments Settled E : clear implicits.
Arguments World E X : clear implicits.
Arguments Pending E : clear implicits.
Arguments LogEntry E : clear implicits.
Arguments Assign E : clear implicits.

(** ** [TenantPageComponent] *)

(** The replacement patterns of [String.prototype.replace] when the search
    value is a string (so there are no captures): [$$] is a dollar sign,
    [$&] the matched text, [$`] the text before the match, [$'] the text
    after it; any other character stands for itself. *)
Fixpoint getSubstitution (matched before after replacement : string)
    : string :=
  match replacement with
  | EmptyString => EmptyString
  | String "$" (String "$" r) =>
      String "$" (getSubstitution matched before after r)
  | String "$" (String "&" r) =>
      (matched ++ getSubstitution matched before after r)%string
  | String "$" (String "`" r) =>
      (before ++ getSubstitution matched before after r)%string
  | String "$" (String "'" r) =>
      (after ++ getSubstitution matched before after r)%string
  | String c r => String c (getSubstitution matched before after r)
  end.

(** [s.replace(searchValue, replaceValue)] for strings: only the first
    occurrence of [searchValue] is replaced, and [s] is returned as it is
    when there is none. *)
Definition replace (searchValue replaceValue s : string) : string :=
  match index 0 searchValue s with
  | None => s
  | Some pos =>
      let preserved := substring 0 pos s in
      let tailPos := pos + String.length searchValue in
      let after := substring tailPos (String.length s - tailPos) s in
      (preserved
         ++ getSubstitution searchValue preserved after replaceValue
         ++ after)%string
  end.

Section Tenant.

(** The properties of the configuration objects that [federatedConfig] does
    not touch. *)
Context {A U C : Type}.

(** Modelled from the spec: the configuration object supplied by the
    configuration provider ([Services.getConfigService()], not among the
    sources): an object whose [artifacts] and [ui] fields may be missing,
    [artifacts] holding the API [url] and [ui] the [navPrefixPath]. *)
Record ArtifactsConfig : Type := mkArtifacts {
  url : option string;
  artifactsOther : A
}.

Record UiConfig : Type := mkUi {
  navPrefixPath : option string;
  uiOther : U
}.

Record Config : Type := mkConfig {
  artifacts : option ArtifactsConfig;
  ui : option UiConfig;
  configOther : C
}.

(** Modelled from the spec: the configuration provider, which supplies the
    base configuration object and the templated base URL of the API. *)
Record ConfigService : Type := mkConfigService {
  registryConfig : Config;
  registryApisUrl : string
}.

(** [getPathParam]: the decoded segment of the current route with the given
    name; the route is the router's, outside the component. *)
Variable getPathParam : string -> string.

Definition tenantId : string :=
  let tenantId := getPathParam "tenantId" in
  tenantId.

Definition navPath : string :=
  let path := ("/t/" ++ tenantId)%string in
  path.

(** [federatedConfig] writes into the object the provider handed out and
    returns that same object: the result comes with the provider as it is
    after the call. A section that is present is an object, hence truthy,
    and passes its guard; a missing one does not. *)
Definition federatedConfig (svc : ConfigService) : Config * ConfigService :=
  let config := registryConfig svc in
  let registryApi :=
    replace ":tenantId" tenantId
            (registryApisUrl svc ++ "/registry")%string in
  let config :=
    match artifacts config with
    | Some a =>
        mkConfig (Some (mkArtifacts (Some registryApi) (artifactsOther a)))
                 (ui config) (configOther config)
    | None => config
    end in
  let config :=
    match ui config with
    | Some u =>
        mkConfig (artifacts config)
                 (Some (mkUi (Some navPath) (uiOther u)))
                 (configOther config)
    | None => config
    end in
  (config, mkConfigService config (registryApisUrl svc)).

End Tenant.

Arguments ArtifactsConfig A : clear implicits.
Arguments UiConfig U : clear implicits.
Arguments Config A U C : clear implicits.
Arguments ConfigService A U C : clear implicits.

(** ** Vocabulary of the properties *)

(** The operations a producer's result stands for: the array the loader
    hands to [Promise.all], empty for [null]. *)
Definition operations {E : Type} (l : Loaders E) : list (Promise E) :=
  match l with
  | Null => []
  | One p => [p]
  | Many ps => ps
  end.

(** A load cycle on [l] fails, [e] being the first rejection. *)
Definition failsWith {E : Type} (l : Loaders E) (e : E) : Prop :=
  operations l <> [] /\ Promise_all (operations l) = Rejected e.

(** Every operation of [l] is fulfilled. *)
Definition allResolve {E : Type} (l : Loaders E) : Prop :=
  Forall (fun p => isResolved p = true) (operations l).

(** The delay of the retry that follows a failure at retry count [r]. *)
Definition backoff (r : nat) : nat := Nat.pow 2 r * 100.

(** The page leaves the loader's fields of the state to the loader. *)
Definition leavesLoadStateUnset {E X : Type} (st : PageState.t E X) : Prop :=
  PageState.pageLoadRetries st = None /\
  PageState.isError st = None /\
  PageState.error st = None.

(** The record [handleError] builds for a cause is on display. *)
Definition surfaced {E X : Type} (cause : E) (st : PageState.t E X) : Prop :=
  exists errorMessage errorType,
    render st =
    ErrorPage X (Some (PageError.mk cause errorMessage errorType)).

(** *** Sample pages *)

(** A page with no state of its own. *)
Definition blankPage : PageState.t string unit :=
  PageState.mk None None None None tt.

(** A page that presets the retry counter in its initial state. *)
Definition presetPage : PageState.t string unit :=
  PageState.mk (Some 3) None None None tt.


(** A page that presets the error fields in its initial state. *)
Definition flaggedPage : PageState.t string unit :=
  PageState.mk None None (Some true)
               (Some (PageError.mk "stale" (Text "Session expired.") Server))
               tt.

(** A producer without operations. *)
Definition noLoaders : nat -> Loaders string := fun _ => Null.

(** A producer whose three operations include two failures, on every call. *)
Definition alwaysFailing : nat -> Loaders string :=
  fun _ => Many [Resolves 3; Rejects 7 "timeout"; Rejects 5 "offline"].

(** A producer that fails on its first four calls and succeeds afterwards. *)
Definition failingFourTimes : nat -> Loaders string :=
  fun k => if k <? 4 then One (Rejects 2 "offline")
           else Many [Resolves 1; Resolves 4].

(** A producer that fails once and has nothing to load afterwards. *)
Definition failingOnce : nat -> Loaders string :=
  fun k => if k =? 0 then One (Rejects 2 "offline") else Null.

(** A configuration provider with both sections, and one with neither. *)
Definition fullService : ConfigService string string unit :=
  mkConfigService
    (mkConfig (Some (mkArtifacts (Some "http://localhost:8080/apis/registry")
                                 "rest"))
              (Some (mkUi None "/ui")) tt)
    "https://fleet.example.com/t/:tenantId".

Definition bareService : ConfigService string string unit :=
  mkConfigService (mkConfig None None tt)
                  "https://fleet.example.com/t/:tenantId".

(** ** Vocabulary of the lifetime properties *)

(** [createLoaders] as [PageComponent] itself defines it, for the pages that
    do not override it: [return null]. *)
Definition createLoaders_default {E : Type} : nat -> Loaders E :=
  fun _ => Null.

(** What the loader reads and what it drives: the retry counter, the loading
    flag, the calls of the producer so far, the timers armed so far and the
    pending callback. The error fields, the page's own fields and the log
    are left out. *)
Definition loaderView {E X : Type} (c : World E X * Pending E)
    : option nat * option bool * nat * list nat * Pending E :=
  (PageState.pageLoadRetries (state (fst c)),
   PageState.isLoading (state (fst c)),
   invocations (fst c),
   timeouts (fst c),
   snd c).

(** The loading flag is set for as long as the loader has something
    pending, and a promise is only awaited after a call of the producer;
    once the flag is cleared the loader is idle. *)
Definition busyInv {E X : Type} (c : World E X * Pending E) : Prop :=
  (PageState.isLoading (state (fst c)) = Some true /\
   forall ps, snd c = AwaitAll ps -> 1 <= invocations (fst c)) \/
  (PageState.isLoading (state (fst c)) = Some false /\
   snd c = Idle /\
   1 <= invocations (fst c)).

(** The timers armed so far are the start-up timer and one backoff timer
    per retry, and the producer has been called once per retry, plus once
    unless the timer of the next load is still pending. *)
Definition countInv {E X : Type} (c : World E X * Pending E) : Prop :=
  timeouts (fst c) =
    10 :: map backoff (seq 0 (getRetries (state (fst c)))) /\
  invocations (fst c) =
    match snd c with
    | Timer _ => getRetries (state (fst c))
    | _ => getRetries (state (fst c)) + 1
    end.

(** The error flag and the error record go together. *)
Definition errorInv {E X : Type} (st : PageState.t E X) : Prop :=
  (PageState.isError st = None /\ PageState.error st = None) \/
  (PageState.isError st = Some true /\ PageState.error st <> None).

(** What holds of a component that only the event loop has touched: the
    awaited promises are those of the producer's last call, and an error is
    on record only once the loader has given up on the producer's sixth
    call. *)
Definition loopInv {E X : Type} (createLoaders : nat -> Loaders E)
    (c : World E X * Pending E) : Prop :=
  busyInv c /\
  countInv c /\
  getRetries (state (fst c)) <= 5 /\
  (forall ps, snd c = AwaitAll ps ->
     ps = operations (createLoaders (invocations (fst c) - 1)) /\
     ps <> []) /\
  ((PageState.isError (state (fst c)) = None /\
    PageState.error (state (fst c)) = None) \/
   (snd c = Idle /\
    getRetries (state (fst c)) = 5 /\
    PageState.isLoading (state (fst c)) = Some true /\
    exists e,
      failsWith (createLoaders 5) e /\
      PageState.error (state (fst c)) =
        Some (PageError.mk e (Text "Error loading page data.") Server))).

(** A producer with an operation that never settles. *)
Definition hanging : nat -> Loaders string :=
  fun _ => Many [Resolves 1; NeverSettles].

(** A producer that fails on its first two calls and succeeds afterwards. *)
Definition failingTwice : nat -> Loaders string :=
  fun k => if k <? 2 then One (Rejects 2 "offline") else One (Resolves 1).

(** A provider whose template names the tenant twice. *)
Definition twoPlaceholders : ConfigService string string unit :=
  mkConfigService
    (mkConfig (Some (mkArtifacts None "rest")) (Some (mkUi None "/ui")) tt)
    "https://:tenantId.example.com/t/:tenantId".

(** A provider whose template does not name the tenant. *)
Definition noPlaceholder : ConfigService string string unit :=
  mkConfigService
    (mkConfig (Some (mkArtifacts None "rest")) (Some (mkUi None "/ui")) tt)
    "https://registry.example.com/apis".

(** ** Properties of the state updates *)

Unset Implicit Arguments.

Section StateFacts.

Context {E X : Type}.

Lemma loadPageData_enters (createLoaders : nat -> Loaders E)
    (w : World E X) :
  operations (createLoaders (invocations w)) <> [] ->
  loadPageData createLoaders w =
  (mkWorld (setSingleState (IsLoading true) (state w)) (logger w)
           (S (invocations w)) (timeouts w),
   AwaitAll (operations (createLoaders (invocations w)))).
Proof.
  unfold loadPageData.
  destruct (createLoaders (invocations w)) as [|p|[|p ps]]; simpl;
    intros H; try reflexivity; now elim H.
Qed.

Lemma loadPageData_nothing (createLoaders : nat -> Loaders E)
    (w : World E X) :
  operations (createLoaders (invocations w)) = [] ->
  loadPageData createLoaders w =
  (mkWorld (setSingleState (IsLoading false) (state w)) (logger w)
           (S (invocations w)) (timeouts w),
   Idle).
Proof.
  unfold loadPageData.
  destruct (createLoaders (invocations w)) as [|p|[|p ps]]; simpl;
    intros H; try reflexivity; discriminate H.
Qed.

Lemma getRetries_incrementRetries (st : PageState.t E X) :
  getRetries (incrementRetries st) = getRetries st + 1.
Proof. reflexivity. Qed.

Lemma getRetries_setLoading (b : bool) (st : PageState.t E X) :
  getRetries (setSingleState (IsLoading b) st) = getRetries st.
Proof. reflexivity. Qed.

End StateFacts.

(** ** Properties of [Promise.all] *)

Section PromiseFacts.

Context {E : Type}.

Lemma firstRejection_none (ps : list (Promise E)) :
  firstRejection ps = None <-> Forall (fun p => isRejected p = false) ps.
Proof.
  induction ps as [|p ps IH]; simpl.
  - split; [constructor | reflexivity].
  - destruct p as [t|t e|]; simpl.
    + rewrite IH. split; [now constructor | now inversion 1].
    + split.
      * destruct (firstRejection ps) as [[t' e']|];
          [destruct (t <=? t')|]; discriminate.
      * inversion 1; discriminate.
    + rewrite IH. split; [now constructor | now inversion 1].
Qed.

(** The rejection [Promise.all] reports is one of the rejections, and none
    of the others occurs before it. *)
Lemma firstRejection_earliest (ps : list (Promise E)) (t : nat) (e : E) :
  firstRejection ps = Some (t, e) ->
  In (Rejects t e) ps /\
  forall t' e', In (Rejects t' e') ps -> t <= t'.
Proof.
  revert t e. induction ps as [|p ps IH]; simpl; intros t e H.
  - discriminate.
  - destruct p as [a|a r|].
    + destruct (IH t e H) as [Hin Hmin]. split; [now right|].
      intros t' e' [Hd|Hi]; [discriminate | eauto].
    + destruct (firstRejection ps) as [[t1 e1]|] eqn:Hf.
      * destruct (IH t1 e1 eq_refl) as [Hin Hmin].
        destruct (a <=? t1) eqn:Hle; inversion H; subst.
        -- apply Nat.leb_le in Hle. split; [now left|].
           intros t' e' [Hd|Hi]; [inversion Hd; lia|].
           specialize (Hmin t' e' Hi). lia.
        -- apply Nat.leb_gt in Hle. split; [now right|].
           intros t' e' [Hd|Hi]; [inversion Hd; lia | eauto].
      * inversion H; subst. split; [now left|].
        intros t' e' [Hd|Hi]; [inversion Hd; lia|].
        apply firstRejection_none in Hf.
        rewrite Forall_forall in Hf. specialize (Hf _ Hi). discriminate.
    + destruct (IH t e H) as [Hin Hmin]. split; [now right|].
      intros t' e' [Hd|Hi]; [discriminate | eauto].
Qed.

Lemma Promise_all_fulfilled (ps : list (Promise E)) :
  Promise_all ps = Fulfilled <-> Forall (fun p => isResolved p = true) ps.
Proof.
  unfold Promise_all. split.
  - destruct (firstRejection ps) as [[t e]|]; [discriminate|].
    destruct (forallb isResolved ps) eqn:Hall; [|discriminate].
    intros _. rewrite forallb_forall in Hall. now apply Forall_forall.
  - intros H.
    assert (Hn : firstRejection ps = None).
    { apply firstRejection_none. eapply Forall_impl; [|exact H].
      intros [a|a r|]; simpl; congruence. }
    rewrite Hn.
    assert (Hall : forallb isResolved ps = true).
    { apply forallb_forall. now apply Forall_forall. }
    now rewrite Hall.
Qed.

Lemma Promise_all_rejected (ps : list (Promise E)) :
  (exists e, Promise_all ps = Rejected e) <->
  Exists (fun p => isRejected p = true) ps.
Proof.
  unfold Promise_all. split.
  - intros [e H].
    destruct (firstRejection ps) as [[t e']|] eqn:Hf.
    + apply firstRejection_earliest in Hf. destruct Hf as [Hin _].
      apply Exists_exists. now exists (Rejects t e').
    + destruct (forallb isResolved ps); discriminate.
  - intros H.
    destruct (firstRejection ps) as [[t e']|] eqn:Hf; [now exists e'|].
    apply firstRejection_none in Hf. apply Exists_exists in H.
    destruct H as (p & Hin & Hp). rewrite Forall_forall in Hf.
    rewrite (Hf p Hin) in Hp. discriminate.
Qed.

End PromiseFacts.

(** ** The retry chain *)

Section RetryChain.

Context {E X : Type}.

Variable createLoaders : nat -> Loaders E.

Local Abbreviation W := (World E X).

Lemma run_stuck (n : nat) (c : W * Pending E) :
  step createLoaders c = None -> run createLoaders n c = c.
Proof. intros H. destruct n; simpl; [reflexivity | now rewrite H]. Qed.

Lemma run_idle (n : nat) (w : W) :
  run createLoaders n (w, Idle) = (w, Idle).
Proof. now apply run_stuck. Qed.

Lemma run_add (a b : nat) (c : W * Pending E) :
  run createLoaders (a + b) c = run createLoaders b (run createLoaders a c).
Proof.
  revert c. induction a as [|a IH]; intros c; simpl; [reflexivity|].
  destruct (step createLoaders c) as [c'|] eqn:Hs; [apply IH|].
  symmetry. now apply run_stuck.
Qed.

Lemma onRejected_retry (e : E) (w : W) :
  getRetries (state w) < MAX_RETRIES ->
  onRejected e w =
  (mkWorld (incrementRetries (state w))
           (logger w ++ [LogDebug "[PageComponent] Page data load failed, retrying."])
           (invocations w)
           (timeouts w ++ [backoff (getRetries (state w))]),
   Timer (backoff (getRetries (state w)))).
Proof.
  intros H. unfold onRejected. simpl.
  apply Nat.ltb_lt in H. now rewrite H.
Qed.

Lemma onRejected_giveUp (e : E) (w : W) :
  MAX_RETRIES <= getRetries (state w) ->
  onRejected e w =
  (handleServerError e "Error loading page data."
     (debug "[PageComponent] Page data load failed, retrying." w),
   Idle).
Proof.
  intros H. unfold onRejected. simpl.
  apply Nat.ltb_ge in H. now rewrite H.
Qed.

(** A failing load cycle takes two turns: the timer fires and the producer
    is called, then the aggregate promise rejects. *)
Lemma failed_cycle (e : E) (w : W) (ms : nat) :
  failsWith (createLoaders (invocations w)) e ->
  run createLoaders 2 (w, Timer ms) =
  onRejected e
    (mkWorld (setSingleState (IsLoading true) (state w)) (logger w)
             (S (invocations w)) (timeouts w)).
Proof.
  intros [Hne Hrej]. simpl.
  rewrite (loadPageData_enters createLoaders w Hne). simpl. rewrite Hrej.
  match goal with |- context [onRejected e ?w'] =>
    destruct (onRejected e w') as [w2 p2] eqn:Hr end.
  destruct (step createLoaders (w2, p2)); reflexivity.
Qed.

(** [k] failing cycles in a row, while the retry count stays within the
    maximum: [k] retries are scheduled, with the delays of the counts
    [r], [r+1], ..., and nothing but the counter and the loading flag is
    written. *)
Lemma retry_chain (k : nat) :
  forall (w : W) (ms : nat),
    getRetries (state w) + k <= MAX_RETRIES ->
    (forall i, i < k ->
       exists e, failsWith (createLoaders (invocations w + i)) e) ->
    exists (w' : W) (ms' : nat),
      run createLoaders (2 * k) (w, Timer ms) = (w', Timer ms') /\
      getRetries (state w') = getRetries (state w) + k /\
      invocations w' = invocations w + k /\
      timeouts w' =
        timeouts w ++ map backoff (seq (getRetries (state w)) k) /\
      PageState.isLoading (state w') =
        match k with
        | 0 => PageState.isLoading (state w)
        | S _ => Some true
        end /\
      PageState.isError (state w') = PageState.isError (state w) /\
      PageState.error (state w') = PageState.error (state w) /\
      PageState.page (state w') = PageState.page (state w).
Proof.
  induction k as [|k IH]; intros w ms Hle Hfail.
  - exists w, ms. simpl. rewrite !Nat.add_0_r, app_nil_r.
    repeat split; trivial.
  - destruct (Hfail 0 (Nat.lt_0_succ k)) as [e He].
    rewrite Nat.add_0_r in He.
    pose proof (failed_cycle e w ms He) as Hrun.
    rewrite onRejected_retry in Hrun
      by (cbn [state]; rewrite getRetries_setLoading; lia).
    cbn [state logger invocations timeouts] in Hrun.
    rewrite getRetries_setLoading in Hrun.
    match type of Hrun with _ = (?w1, Timer ?ms1) =>
      destruct (IH w1 ms1)
        as (w' & ms' & Hr & Hn & Hi & Ht & Hl & He1 & He2 & Hp)
    end.
    + cbn [state].
      rewrite getRetries_incrementRetries, getRetries_setLoading. lia.
    + intros i Hi. cbn [invocations].
      replace (S (invocations w) + i) with (invocations w + S i) by lia.
      apply Hfail. lia.
    + exists w', ms'.
      replace (2 * S k) with (2 + 2 * k) by lia.
      rewrite run_add, Hrun, Hr.
      cbn [state logger invocations timeouts] in Hn, Hi, Ht, He1, He2, Hp.
      rewrite getRetries_incrementRetries, getRetries_setLoading in Hn, Ht.
      repeat split; trivial; try lia.
      * rewrite Ht, <- app_assoc. simpl.
        now rewrite Nat.add_1_r.
      * rewrite Hl. now destruct k.
Qed.

End RetryChain.

(** ** The loader's scenarios *)

(** C1. For a producer whose operations fail on every load cycle, a loader
    that starts with retry count 0 calls the producer 6 times and schedules
    exactly 5 retries, after 100, 200, 400, 800 and 1600 ms; the sixth
    failure puts it in the error state, which records the error of that
    last failure with the message "Error loading page data." and shows the
    error page; nothing is pending afterwards, so however many more turns
    the event loop takes no sixth retry is scheduled. *)
Theorem exhausted_retries_end_in_error {E X : Type}
    (createLoaders : nat -> Loaders E) (errs : nat -> E)
    (w : World E X) (ms turns : nat) :
  getRetries (state w) = 0 ->
  (forall k, k <= MAX_RETRIES ->
     failsWith (createLoaders (invocations w + k)) (errs k)) ->
  2 * (MAX_RETRIES + 1) <= turns ->
  exists w' : World E X,
    run createLoaders turns (w, Timer ms) = (w', Idle) /\
    invocations w' = invocations w + 6 /\
    getRetries (state w') = 5 /\
    timeouts w' = timeouts w ++ [100; 200; 400; 800; 1600] /\
    PageState.isError (state w') = Some true /\
    PageState.error (state w') =
      Some (PageError.mk (errs 5) (Text "Error loading page data.") Server) /\
    render (state w') =
      ErrorPage X
        (Some (PageError.mk (errs 5) (Text "Error loading page data.")
                            Server)).
Proof.
  intros Hr0 Hfail Hturns.
  destruct (retry_chain createLoaders 5 w ms)
    as (w5 & ms5 & Hrun & Hr & Hi & Ht & _ & _ & _ & _).
  { rewrite Hr0. unfold MAX_RETRIES. lia. }
  { intros i Hi. exists (errs i). apply Hfail. unfold MAX_RETRIES. lia. }
  rewrite Hr0 in Hr, Ht.
  assert (Hlast : failsWith (createLoaders (invocations w5)) (errs 5)).
  { rewrite Hi. apply Hfail. unfold MAX_RETRIES. lia. }
  pose proof (failed_cycle createLoaders (errs 5) w5 ms5 Hlast) as Hrun2.
  rewrite onRejected_giveUp in Hrun2
    by (cbn [state]; rewrite getRetries_setLoading, Hr; unfold MAX_RETRIES; lia).
  eexists. split.
  - replace turns with (2 * 5 + (2 + (turns - 12)))
      by (unfold MAX_RETRIES in Hturns; lia).
    rewrite run_add, Hrun, run_add, Hrun2. apply run_idle.
  - cbn [handleServerError handleError update debug error state invocations
         timeouts logger].
    unfold getRetries in *. unfold render, isError.
    destruct w5 as [[r l err er pg] lg inv ts]. simpl in *.
    rewrite Ht, Hi. repeat split; trivial; lia.
Qed.

(** C2. A failure at retry count [r] below 5 sets the count to [r + 1] and
    arms a timer of [100 * 2 ^ r] ms whose callback calls the producer
    again, so the delays of the counts 0 to 4 are 100, 200, 400, 800 and
    1600 ms. For a producer that fails on its calls 1 to 4 and whose
    operations all resolve on call 5, a loader that starts with retry count
    0 ends not loading, with retry count 4, after 5 calls of the producer
    and the scheduled delays 100, 200, 400 and 800 ms, 100 * (1 + 2 + 4 + 8)
    ms in total. *)
Theorem backoff_doubles_until_success {E X : Type}
    (createLoaders : nat -> Loaders E) (w : World E X) (ms turns : nat) :
  getRetries (state w) = 0 ->
  (forall k, k < 4 ->
     exists e, failsWith (createLoaders (invocations w + k)) e) ->
  allResolve (createLoaders (invocations w + 4)) ->
  10 <= turns ->
  (forall (e : E) (v : World E X) (r : nat),
     getRetries (state v) = r -> r < MAX_RETRIES ->
     exists v' : World E X,
       onRejected e v = (v', Timer (100 * 2 ^ r)) /\
       getRetries (state v') = r + 1 /\
       timeouts v' = timeouts v ++ [100 * 2 ^ r] /\
       step createLoaders (v', Timer (100 * 2 ^ r)) =
         Some (loadPageData createLoaders v') /\
       invocations (fst (loadPageData createLoaders v')) =
         S (invocations v)) /\
  map (fun r => 100 * 2 ^ r) (seq 0 MAX_RETRIES) =
    [100; 200; 400; 800; 1600] /\
  exists w' : World E X,
    run createLoaders turns (w, Timer ms) = (w', Idle) /\
    PageState.isLoading (state w') = Some false /\
    getRetries (state w') = 4 /\
    invocations w' = invocations w + 5 /\
    timeouts w' = timeouts w ++ [100; 200; 400; 800] /\
    list_sum [100; 200; 400; 800] = 100 * (1 + 2 + 4 + 8) /\
    PageState.isError (state w') = PageState.isError (state w) /\
    PageState.error (state w') = PageState.error (state w).
Proof.
  intros Hr0 Hfail Hok Hturns. split; [|split; [reflexivity|]].
  - intros e v r Hr Hlt. rewrite <- Hr in Hlt.
    rewrite (onRejected_retry e v Hlt), Hr.
    unfold backoff. rewrite (Nat.mul_comm (2 ^ r) 100).
    eexists. split; [reflexivity|].
    cbn [state timeouts]. rewrite getRetries_incrementRetries, Hr.
    repeat split. unfold loadPageData. cbn [invocations].
    destruct (createLoaders (invocations v)) as [|p|[|p ps]]; reflexivity.
  - destruct (retry_chain createLoaders 4 w ms)
      as (w4 & ms4 & Hrun & Hr & Hi & Ht & _ & He1 & He2 & _).
    { rewrite Hr0. unfold MAX_RETRIES. lia. }
    { exact Hfail. }
    rewrite Hr0 in Hr, Ht. rewrite <- Hi in Hok.
    assert (Hend : exists w',
               run createLoaders (turns - 8) (w4, Timer ms4) = (w', Idle) /\
               state w' = setSingleState (IsLoading false) (state w4) /\
               invocations w' = S (invocations w4) /\
               timeouts w' = timeouts w4).
    { replace (turns - 8) with (1 + (1 + (turns - 10))) by lia.
      rewrite run_add.
      destruct (operations (createLoaders (invocations w4))) as [|p ps] eqn:Hops.
      - simpl run at 2. rewrite (loadPageData_nothing createLoaders w4 Hops).
        rewrite run_idle. eexists. split; [reflexivity|]. now simpl.
      - assert (Hne : operations (createLoaders (invocations w4)) <> [])
          by (rewrite Hops; discriminate).
        simpl run at 2. rewrite (loadPageData_enters createLoaders w4 Hne).
        rewrite run_add. simpl run at 2.
        assert (Hall : Promise_all (operations (createLoaders (invocations w4)))
                       = Fulfilled) by now apply Promise_all_fulfilled.
        rewrite Hall. unfold onFulfilled. rewrite run_idle.
        eexists. split; [reflexivity|].
        cbn [update state invocations timeouts].
        destruct (state w4); now simpl. }
    destruct Hend as (w' & Hrun' & Hst & Hinv & Hts).
    exists w'. split.
    + replace turns with (2 * 4 + (turns - 8)) by lia.
      now rewrite run_add, Hrun.
    + rewrite Hst, Hinv, Hts, Ht, Hi.
      unfold getRetries in *.
      destruct (state w4); simpl in *. rewrite Hr.
      repeat split; trivial; lia.
Qed.

Lemma exhausted_retries_end_in_error_witness :
  getRetries (state (fst (construct blankPage))) = 0 /\
  exists w' : World string unit,
    run alwaysFailing 12 (construct blankPage) = (w', Idle) /\
    invocations w' = 6 /\
    getRetries (state w') = 5 /\
    timeouts w' = [10; 100; 200; 400; 800; 1600] /\
    PageState.isError (state w') = Some true /\
    PageState.error (state w') =
      Some (PageError.mk "offline" (Text "Error loading page data.") Server) /\
    render (state w') =
      ErrorPage unit
        (Some (PageError.mk "offline" (Text "Error loading page data.")
                            Server)).
Proof.
  split; [reflexivity|].
  apply (exhausted_retries_end_in_error alwaysFailing (fun _ => "offline")
           (fst (construct blankPage)) 10 12).
  - reflexivity.
  - intros k _. split; [discriminate | reflexivity].
  - apply le_n.
Defined.

Lemma backoff_doubles_until_success_witness :
  getRetries (state (fst (construct blankPage))) = 0 /\
  exists w' : World string unit,
    run failingFourTimes 10 (construct blankPage) = (w', Idle) /\
    PageState.isLoading (state w') = Some false /\
    getRetries (state w') = 4 /\
    invocations w' = 5 /\
    timeouts w' = [10; 100; 200; 400; 800] /\
    list_sum [100; 200; 400; 800] = 100 * (1 + 2 + 4 + 8) /\
    PageState.isError (state w') = None /\
    PageState.error (state w') = None.
Proof.
  split; [reflexivity|].
  apply (backoff_doubles_until_success failingFourTimes
           (fst (construct blankPage)) 10 10).
  - reflexivity.
  - intros k Hk. exists "offline".
    do 4 (destruct k as [|k]; [split; [discriminate | reflexivity]|]).
    exfalso. lia.
  - repeat constructor.
  - apply le_n.
Defined.

(** ** One load cycle *)

Section Frames.

Context {E X : Type}.

Variable createLoaders : nat -> Loaders E.

(** What a failure leaves alone: the loading flag, whichever branch the
    handler takes. *)
Lemma onRejected_keeps_loading (e : E) (w : World E X) :
  PageState.isLoading (state (fst (onRejected e w))) =
  PageState.isLoading (state w).
Proof.
  unfold onRejected. cbn [debug state].
  destruct (getRetries (state w) <? MAX_RETRIES); reflexivity.
Qed.

(** [handleError] writes the record and the flag, and nothing else of the
    state. *)
Lemma handleError_state (ty : PageErrorType) (e : E) (m : Message)
    (w : World E X) :
  state (handleError ty e m w) =
  PageState.mk (PageState.pageLoadRetries (state w))
               (PageState.isLoading (state w))
               (Some true)
               (Some (PageError.mk e m ty))
               (PageState.page (state w)).
Proof. reflexivity. Qed.

(** Each transition either keeps the retry count or, from a count below
    the maximum, adds one to it. *)
Lemma transition_retries (c c' : World E X * Pending E) :
  transition createLoaders c c' ->
  getRetries (state (fst c')) = getRetries (state (fst c)) \/
  (getRetries (state (fst c)) < MAX_RETRIES /\
   getRetries (state (fst c')) = getRetries (state (fst c)) + 1).
Proof.
  intros [[w p] c2 Hs | err info w p | err msg w p];
    [|left; reflexivity..].
  destruct p as [|ms|ps]; simpl in Hs.
  - discriminate.
  - inversion Hs; subst. left. unfold loadPageData.
    destruct (createLoaders (invocations w)) as [|q|[|q qs]]; reflexivity.
  - destruct (Promise_all ps) as [|e|]; inversion Hs; subst.
    + left. reflexivity.
    + unfold onRejected. cbn [debug state fst].
      destruct (getRetries (state w) <? MAX_RETRIES) eqn:Hlt.
      * right. apply Nat.ltb_lt in Hlt. split; [exact Hlt | reflexivity].
      * left. reflexivity.
Qed.

(** No transition clears the error flag or removes the error record. *)
Lemma transition_keeps_error (c c' : World E X * Pending E) :
  transition createLoaders c c' ->
  PageState.isError (state (fst c)) = Some true ->
  PageState.error (state (fst c)) <> None ->
  PageState.isError (state (fst c')) = Some true /\
  PageState.error (state (fst c')) <> None.
Proof.
  intros [[w p] c2 Hs | err info w p | err msg w p] Hflag Hrec;
    [|split; [reflexivity | discriminate]..].
  cbn [fst] in Hflag, Hrec.
  destruct p as [|ms|ps]; simpl in Hs.
  - discriminate.
  - inversion Hs; subst. unfold loadPageData.
    destruct (createLoaders (invocations w)) as [|q|[|q qs]];
      split; assumption.
  - destruct (Promise_all ps) as [|e|]; inversion Hs; subst.
    + split; assumption.
    + unfold onRejected. cbn [debug state fst].
      destruct (getRetries (state w) <? MAX_RETRIES).
      * split; assumption.
      * split; [reflexivity | discriminate].
Qed.

Lemma reaches_keeps_error (c c' : World E X * Pending E) :
  reaches createLoaders c c' ->
  PageState.isError (state (fst c)) = Some true ->
  PageState.error (state (fst c)) <> None ->
  PageState.isError (state (fst c')) = Some true /\
  PageState.error (state (fst c')) <> None.
Proof.
  induction 1 as [c | c c1 c2 Ht _ IH]; intros Hflag Hrec.
  - split; assumption.
  - destruct (transition_keeps_error c c1 Ht Hflag Hrec) as [Hf Hr].
    now apply IH.
Qed.

Lemma reaches_retries (c c' : World E X * Pending E) :
  reaches createLoaders c c' ->
  getRetries (state (fst c)) <= getRetries (state (fst c')) /\
  getRetries (state (fst c')) <=
    Nat.max (getRetries (state (fst c))) MAX_RETRIES.
Proof.
  induction 1 as [c | c c1 c2 Ht _ IH].
  - split; lia.
  - destruct (transition_retries c c1 Ht) as [Heq | [Hlt Heq]];
      rewrite Heq in IH; lia.
Qed.


End Frames.

(** C3. When the producer yields one or more operations, however many, the
    loader keeps the page loading and waits on their aggregate; the cycle
    ends with the page marked not loading if and only if every operation
    resolves. As soon as one operation is rejected the whole cycle fails:
    the failure handler runs, on the earliest rejection among the
    operations, and the page is not marked loaded. *)
Theorem load_succeeds_iff_all_resolve {E X : Type}
    (createLoaders : nat -> Loaders E) (w : World E X) :
  operations (createLoaders (invocations w)) <> [] ->
  let ps := operations (createLoaders (invocations w)) in
  let entered := loadPageData createLoaders w in
  snd entered = AwaitAll ps /\
  isLoading (state (fst entered)) = true /\
  ((exists c', step createLoaders entered = Some c' /\
               isLoading (state (fst c')) = false) <->
   allResolve (createLoaders (invocations w))) /\
  (allResolve (createLoaders (invocations w)) ->
   step createLoaders entered = Some (onFulfilled (fst entered)) /\
   snd (onFulfilled (fst entered)) = Idle) /\
  (Exists (fun p => isRejected p = true) ps ->
   exists t e,
     In (Rejects t e) ps /\
     (forall t' e', In (Rejects t' e') ps -> t <= t') /\
     step createLoaders entered = Some (onRejected e (fst entered)) /\
     isLoading (state (fst (onRejected e (fst entered)))) = true).
Proof.
  intros Hne ps entered. subst ps entered.
  rewrite (loadPageData_enters createLoaders w Hne).
  set (ps := operations (createLoaders (invocations w))).
  cbn [fst snd step].
  assert (Hload : forall e,
            isLoading (state (fst (onRejected e
              (mkWorld (setSingleState (IsLoading true) (state w)) (logger w)
                       (S (invocations w)) (timeouts w))))) = true).
  { intros e. unfold isLoading. now rewrite onRejected_keeps_loading. }
  split; [reflexivity|]. split; [reflexivity|]. split; [|split].
  - unfold allResolve. fold ps. rewrite <- Promise_all_fulfilled. split.
    + intros (c' & Hs & Hl).
      destruct (Promise_all ps) as [|e|]; [reflexivity| |discriminate].
      inversion Hs; subst. rewrite Hload in Hl. discriminate.
    + intros Hf. rewrite Hf. eexists. split; reflexivity.
  - unfold allResolve. fold ps. rewrite <- Promise_all_fulfilled.
    intros Hf. rewrite Hf. split; reflexivity.
  - intros Hex. unfold Promise_all.
    destruct (firstRejection ps) as [[t e]|] eqn:Hf.
    + destruct (firstRejection_earliest ps t e Hf) as [Hin Hmin].
      exists t, e. repeat split; trivial.
    + apply firstRejection_none in Hf. apply Exists_exists in Hex.
      destruct Hex as (p & Hin & Hp). rewrite Forall_forall in Hf.
      rewrite (Hf p Hin) in Hp. discriminate.
Qed.

Lemma load_succeeds_iff_all_resolve_witness :
  snd (loadPageData alwaysFailing (fst (construct blankPage))) =
    AwaitAll [Resolves 3; Rejects 7 "timeout"; Rejects 5 "offline"] /\
  ((exists c', step alwaysFailing
                 (loadPageData alwaysFailing (fst (construct blankPage)))
               = Some c' /\
               isLoading (state (fst c')) = false) <->
   allResolve (Many [Resolves 3; Rejects 7 "timeout"; Rejects 5 "offline"])).
Proof.
  assert (Hne : operations
                  (alwaysFailing (invocations (fst (construct blankPage))))
                <> []) by discriminate.
  destruct (load_succeeds_iff_all_resolve alwaysFailing
              (fst (construct blankPage)) Hne) as (H1 & _ & H3 & _).
  split; [exact H1 | exact H3].
Defined.

(** C4. When the producer yields no operations (null, or an empty array),
    the same call of [loadPageData] marks the page not loading and leaves
    nothing pending: no promise is awaited and no timer armed. The retry
    count and the error fields are not written, so a loader that starts with
    retry count 0 and no error ends with retry count 0 and no error, and the
    page itself is rendered. *)
Theorem no_operations_is_immediate_success {E X : Type}
    (createLoaders : nat -> Loaders E) (w : World E X) :
  createLoaders (invocations w) = Null \/
  createLoaders (invocations w) = Many [] ->
  getRetries (state w) = 0 ->
  PageState.isError (state w) = None ->
  PageState.error (state w) = None ->
  exists w' : World E X,
    loadPageData createLoaders w = (w', Idle) /\
    step createLoaders (w', Idle) = None /\
    PageState.isLoading (state w') = Some false /\
    isLoading (state w') = false /\
    getRetries (state w') = 0 /\
    PageState.pageLoadRetries (state w') =
      PageState.pageLoadRetries (state w) /\
    PageState.isError (state w') = None /\
    PageState.error (state w') = None /\
    timeouts w' = timeouts w /\
    invocations w' = S (invocations w) /\
    render (state w') = RenderPage (state w').
Proof.
  intros Hnone Hr He1 He2.
  assert (Hops : operations (createLoaders (invocations w)) = [])
    by (destruct Hnone as [H|H]; now rewrite H).
  rewrite (loadPageData_nothing createLoaders w Hops).
  eexists. split; [reflexivity|]. cbn [state timeouts invocations].
  unfold render, isError, isLoading, getRetries in *.
  destruct (state w) as [r l err er pg]. simpl in *.
  rewrite He1. repeat split; trivial.
Qed.

Lemma no_operations_is_immediate_success_witness :
  exists w' : World string unit,
    run noLoaders 1 (construct blankPage) = (w', Idle) /\
    PageState.isLoading (state w') = Some false /\
    getRetries (state w') = 0 /\
    PageState.error (state w') = None /\
    timeouts w' = [10].
Proof.
  destruct (no_operations_is_immediate_success noLoaders
              (fst (construct blankPage)) (or_introl eq_refl)
              eq_refl eq_refl eq_refl)
    as (w' & Hl & _ & H1 & _ & H2 & _ & _ & H3 & H4 & _).
  exists w'. repeat split; trivial.
Defined.

(** ** Errors *)

(** C5. A fault of the presentation layer is not retried: whatever the
    component has pending, [componentDidCatch] sets the error flag and
    records the fault, so that the error page is shown, without calling the
    producer, arming a timer or touching the retry count (which is 0 when
    the fault hits a loader that has not retried yet); from then on the
    error page stays, whatever happens next. A data-load fault at a retry
    count below the maximum instead arms the backoff timer and leaves the
    error fields alone. *)
Theorem render_fault_is_not_retried {E X : Type}
    (createLoaders : nat -> Loaders E) (err : E) (errorInfo : ErrorInfo)
    (w : World E X) (p : Pending E) :
  let w' := componentDidCatch err errorInfo w in
  transition createLoaders (w, p) (w', p) /\
  isError (state w') = true /\
  render (state w') =
    ErrorPage X (Some (PageError.mk err (Info errorInfo) React)) /\
  getRetries (state w') = getRetries (state w) /\
  invocations w' = invocations w /\
  timeouts w' = timeouts w /\
  (forall c, reaches createLoaders (w', p) c ->
     isError (state (fst c)) = true /\
     exists pe, render (state (fst c)) = ErrorPage X (Some pe)) /\
  (forall (e : E) (v : World E X),
     getRetries (state v) < MAX_RETRIES ->
     snd (onRejected e v) = Timer (backoff (getRetries (state v))) /\
     PageState.isError (state (fst (onRejected e v))) =
       PageState.isError (state v) /\
     PageState.error (state (fst (onRejected e v))) =
       PageState.error (state v)).
Proof.
  intros w'. subst w'.
  split; [apply RenderFault|].
  do 5 (split; [reflexivity|]). split.
  - intros c Hc.
    destruct (reaches_keeps_error createLoaders _ c Hc) as [Hf Hr];
      [reflexivity | discriminate |].
    unfold render, isError. rewrite Hf. cbn [truthy]. split; [reflexivity|].
    destruct (PageState.error (state (fst c))) as [pe|];
      [now exists pe | now elim Hr].
  - intros e v Hlt. rewrite (onRejected_retry e v Hlt). repeat split.
Qed.

(** C6, as the spec states it, fails: a data-load fault below the retry
    limit is neither recorded nor shown. Here the first load of a blank page
    is rejected with "offline" and the second has nothing to load: after the
    failure the state holds no error record and the spinner is shown, the
    only trace being a fixed debug line, and at the end the page itself is
    rendered with nothing pending. *)
Lemma load_fault_below_limit_not_surfaced :
  let failed := run failingOnce 2 (construct blankPage) in
  let final := run failingOnce 3 (construct blankPage) in
  ~ surfaced "offline" (state (fst failed)) /\
  PageState.error (state (fst failed)) = None /\
  render (state (fst failed)) = LoadingSection /\
  logger (fst failed) =
    [LogDebug "[PageComponent] Page data load failed, retrying."] /\
  snd final = Idle /\
  ~ surfaced "offline" (state (fst final)) /\
  PageState.error (state (fst final)) = None /\
  PageState.isError (state (fst final)) = None /\
  render (state (fst final)) = RenderPage (state (fst final)) /\
  logger (fst final) =
    [LogDebug "[PageComponent] Page data load failed, retrying."].
Proof.
  cbv zeta. repeat split; try reflexivity.
  - intros (m & t & H). vm_compute in H. discriminate H.
  - intros (m & t & H). vm_compute in H. discriminate H.
Qed.

(** C6, amended. Every rejection of the aggregate promise is taken by the
    failure handler, and every error that reaches [handleError] - a fault of
    the presentation layer, or a data-load fault once the retry count has
    reached the maximum - is normalized into the record
    [{ error, errorMessage, type }] (the message being React's error info
    for the former and "Error loading page data." for the latter), logged,
    and shown on the error page. A
    data-load fault below the maximum is consumed by the retry: the error
    fields are left as they were and only a fixed debug line is logged. *)
Theorem handled_errors_are_normalized {E X : Type}
    (createLoaders : nat -> Loaders E) (err : E) (w : World E X) :
  (forall ps, Promise_all ps = Rejected err ->
     step createLoaders (w, AwaitAll ps) = Some (onRejected err w)) /\
  (forall errorInfo,
     let w' := componentDidCatch err errorInfo w in
     PageState.error (state w') =
       Some (PageError.mk err (Info errorInfo) React) /\
     surfaced err (state w') /\
     In (LogError "[PageComponent] " (ArgError err)) (logger w')) /\
  (MAX_RETRIES <= getRetries (state w) ->
     let w' := fst (onRejected err w) in
     snd (onRejected err w) = Idle /\
     PageState.error (state w') =
       Some (PageError.mk err (Text "Error loading page data.") Server) /\
     surfaced err (state w') /\
     In (LogError "[PageComponent] " (ArgError err)) (logger w')) /\
  (getRetries (state w) < MAX_RETRIES ->
     let w' := fst (onRejected err w) in
     PageState.error (state w') = PageState.error (state w) /\
     PageState.isError (state w') = PageState.isError (state w) /\
     logger w' =
       logger w ++
       [LogDebug "[PageComponent] Page data load failed, retrying."]).
Proof.
  split; [|split; [|split]].
  - intros ps H. simpl. now rewrite H.
  - intros errorInfo w'. subst w'. split; [reflexivity|]. split.
    + eexists _, _. reflexivity.
    + simpl. apply in_or_app. right. now left.
  - intros H w'. subst w'. rewrite (onRejected_giveUp err w H).
    cbn [fst snd]. split; [reflexivity|]. split; [reflexivity|]. split.
    + eexists _, _. reflexivity.
    + simpl. apply in_or_app. right. now left.
  - intros H w'. subst w'. rewrite (onRejected_retry err w H).
    cbn [fst state logger]. repeat split.
Qed.

Lemma handled_errors_are_normalized_witness :
  let w := fst (run alwaysFailing 11 (construct blankPage)) in
  getRetries (state w) = 5 /\
  PageState.error (state (fst (onRejected "offline" w))) =
    Some (PageError.mk "offline" (Text "Error loading page data.") Server) /\
  surfaced "offline" (state (fst (onRejected "offline" w))) /\
  PageState.error
    (state (fst (onRejected "offline" (fst (construct blankPage))))) = None.
Proof.
  cbv zeta.
  destruct (handled_errors_are_normalized alwaysFailing "offline"
              (fst (run alwaysFailing 11 (construct blankPage))))
    as (_ & _ & Hmax & _).
  destruct (handled_errors_are_normalized alwaysFailing "offline"
              (fst (construct blankPage)))
    as (_ & _ & _ & Hlow).
  destruct (Hmax (le_n 5)) as (_ & H1 & H2 & _).
  destruct (Hlow (Nat.lt_0_succ 4)) as (H3 & _).
  split; [reflexivity|]. split; [exact H1|]. split; [exact H2 | exact H3].
Defined.

(** C9. [handleError] writes the error record and the error flag and
    nothing else of the state: the retry count, the loading flag and the
    page's own fields are as before (so the loading flag of a page that was
    loading is still set), and so are the pending callback, the count of
    producer calls and the timers. [render] shows the error page whenever
    the error flag is set, whether the loading flag is set or not. *)
Theorem handleError_writes_error_only {E X : Type}
    (errorType : PageErrorType) (err : E) (errorMessage : Message)
    (w : World E X) :
  let w' := handleError errorType err errorMessage w in
  PageState.error (state w') =
    Some (PageError.mk err errorMessage errorType) /\
  PageState.isError (state w') = Some true /\
  PageState.pageLoadRetries (state w') =
    PageState.pageLoadRetries (state w) /\
  getRetries (state w') = getRetries (state w) /\
  PageState.isLoading (state w') = PageState.isLoading (state w) /\
  isLoading (state w') = isLoading (state w) /\
  PageState.page (state w') = PageState.page (state w) /\
  invocations w' = invocations w /\
  timeouts w' = timeouts w /\
  (forall st : PageState.t E X,
     isError st = true -> render st = ErrorPage X (PageState.error st)) /\
  (isLoading (state w) = true ->
     isLoading (state w') = true /\
     render (state w') =
       ErrorPage X (Some (PageError.mk err errorMessage errorType))).
Proof.
  intros w'. subst w'. rewrite handleError_state.
  repeat split; try reflexivity.
  - intros st H. unfold render. now rewrite H.
  - exact H.
Qed.

(** ** The lifetime of a page *)

(** C8, as the spec states it, fails: [initializeState] forces the loading
    flag and nothing else, so what a page's own initial state says about the
    retry counter and the error fields is kept. A page that presets the
    counter to 3 is constructed with retry count 3, and a page that presets
    the error fields is constructed with that error on record and shows the
    error page before anything was loaded. *)
Lemma preset_load_state_is_kept :
  let st := state (fst (construct presetPage)) in
  let st' := state (fst (construct flaggedPage)) in
  PageState.isLoading st = Some true /\
  getRetries st = 3 /\
  getRetries st <> 0 /\
  PageState.isLoading st' = Some true /\
  PageState.error st' =
    Some (PageError.mk "stale" (Text "Session expired.") Server) /\
  PageState.error st' <> None /\
  render st' =
    ErrorPage unit
      (Some (PageError.mk "stale" (Text "Session expired.") Server)).
Proof.
  cbv zeta. repeat split; try reflexivity; discriminate.
Qed.

(** C8, amended. A page instance is constructed loading, whatever its own
    initial state says about the loading flag, with the first load 10 ms
    away and the producer not yet called. The retry count, the error flag,
    the error record and the page's own fields are those of the page's
    initial state: the retry count is 0 exactly when the page leaves the
    counter unset or presets 0, and no error is recorded exactly when the
    page presets none. For a page that leaves the loader's fields unset the
    retry count is 0, no error is flagged or recorded, and the spinner is
    shown. *)
Theorem initial_state_forces_loading_only {E X : Type}
    (ips : PageState.t E X) :
  let c := construct ips in
  let st := state (fst c) in
  PageState.isLoading st = Some true /\
  isLoading st = true /\
  snd c = Timer 10 /\
  invocations (fst c) = 0 /\
  PageState.pageLoadRetries st = PageState.pageLoadRetries ips /\
  getRetries st = getRetries ips /\
  PageState.isError st = PageState.isError ips /\
  PageState.error st = PageState.error ips /\
  PageState.page st = PageState.page ips /\
  (getRetries st = 0 <->
   PageState.pageLoadRetries ips = None \/
   PageState.pageLoadRetries ips = Some 0) /\
  (PageState.error st = None <-> PageState.error ips = None) /\
  (leavesLoadStateUnset ips ->
   getRetries st = 0 /\
   PageState.isError st = None /\
   isError st = false /\
   PageState.error st = None /\
   render st = LoadingSection).
Proof.
  intros c st. subst c st.
  cbn [construct setTimeout fst snd state invocations].
  do 9 (split; [reflexivity|]). split; [|split].
  - unfold getRetries, initializeState. cbn [PageState.pageLoadRetries].
    destruct (PageState.pageLoadRetries ips) as [n|].
    + split; [intros ->; now right | intros [H|H]; [discriminate H|]].
      now inversion H.
    + split; [now left | reflexivity].
  - reflexivity.
  - intros (Hr & Hf & He).
    unfold render, isError, isLoading, getRetries, initializeState.
    cbn [PageState.pageLoadRetries PageState.isLoading PageState.isError
         PageState.error PageState.page].
    rewrite Hr, Hf, He. repeat split; reflexivity.
Qed.

Lemma initial_state_forces_loading_only_witness :
  leavesLoadStateUnset blankPage /\
  PageState.isLoading (state (fst (construct blankPage))) = Some true /\
  getRetries (state (fst (construct blankPage))) = 0 /\
  PageState.error (state (fst (construct blankPage))) = None /\
  render (state (fst (construct blankPage))) = LoadingSection.
Proof.
  assert (H : leavesLoadStateUnset blankPage)
    by (split; [reflexivity | split; reflexivity]).
  destruct (initial_state_forces_loading_only blankPage)
    as (H1 & _ & _ & _ & _ & _ & _ & _ & _ & _ & _ & Hclean).
  destruct (Hclean H) as (H2 & _ & _ & H3 & H4).
  split; [exact H|]. split; [exact H1|]. split; [exact H2|].
  split; [exact H3 | exact H4].
Defined.

Lemma run_reaches {E X : Type} (createLoaders : nat -> Loaders E)
    (n : nat) (c : World E X * Pending E) :
  reaches createLoaders c (run createLoaders n c).
Proof.
  revert c. induction n as [|n IH]; intros c; simpl.
  - apply Relation_Operators.rt1n_refl.
  - destruct (step createLoaders c) as [c'|] eqn:Hs.
    + eapply Relation_Operators.rt1n_trans; [|apply IH].
      now apply TurnOfLoop.
    + apply Relation_Operators.rt1n_refl.
Qed.




(** ** Tenant-scoped configuration *)

Section StringFacts.

Local Open Scope string_scope.

Local Transparent prefix.

Lemma prefix_cons (a b : ascii) (s1 s2 : string) :
  prefix (String a s1) (String b s2) =
  if ascii_dec a b then prefix s1 s2 else false.
Proof. reflexivity. Qed.

Lemma prefix_nil_l (s : string) : prefix "" s = true.
Proof. destruct s; reflexivity. Qed.

(** A pattern that does not start [p] cannot start [p] followed by a
    character foreign to the pattern. *)
Lemma prefix_app_foreign (pat p r : string) (c : ascii) :
  ~ In c (list_ascii_of_string pat) ->
  prefix pat p = false ->
  prefix pat (p ++ String c r) = false.
Proof.
  revert p. induction pat as [|a pat IH]; intros p Hc Hp.
  - rewrite prefix_nil_l in Hp. discriminate.
  - destruct p as [|b p]; cbn [append].
    + rewrite prefix_cons. destruct (ascii_dec a c) as [Heq|_]; [|reflexivity].
      elim Hc. now left.
    + rewrite prefix_cons in Hp. rewrite prefix_cons.
      destruct (ascii_dec a b); [|reflexivity].
      apply IH; [|exact Hp]. intros H. apply Hc. now right.
Qed.

Lemma index_cons (pat s : string) (b : ascii) :
  index 0 pat (String b s) =
  if prefix pat (String b s) then Some 0
  else match index 0 pat s with
       | Some n => Some (S n)
       | None => None
       end.
Proof. reflexivity. Qed.

Lemma index_app_foreign (pat p r : string) (c : ascii) :
  ~ In c (list_ascii_of_string pat) ->
  index 0 pat p = None ->
  index 0 pat (p ++ String c r) =
  option_map (Nat.add (String.length p)) (index 0 pat (String c r)).
Proof.
  intros Hc. remember (index 0 pat (String c r)) as k eqn:Hk.
  induction p as [|b p IH]; intros Hp.
  - cbn [append String.length]. rewrite <- Hk. now destruct k.
  - rewrite index_cons in Hp. cbn [append]. rewrite index_cons.
    destruct (prefix pat (String b p)) eqn:Hpre; [discriminate|].
    pose proof (prefix_app_foreign pat (String b p) r c Hc Hpre) as Hx.
    cbn [append] in Hx. rewrite Hx.
    destruct (index 0 pat p) as [n|] eqn:Hi; [discriminate|].
    rewrite (IH eq_refl). now destruct k.
Qed.

Lemma length_append (s1 s2 : string) :
  String.length (s1 ++ s2) = String.length s1 + String.length s2.
Proof. induction s1 as [|a s1 IH]; simpl; [reflexivity | now rewrite IH]. Qed.

Lemma append_assoc (s1 s2 s3 : string) :
  (s1 ++ s2) ++ s3 = s1 ++ (s2 ++ s3).
Proof. induction s1 as [|a s1 IH]; simpl; [reflexivity | now rewrite IH]. Qed.

Lemma substring_take_app (p s : string) (n : nat) :
  substring 0 (String.length p + n) (p ++ s) = p ++ substring 0 n s.
Proof. induction p as [|a p IH]; simpl; [reflexivity | now rewrite IH]. Qed.

Lemma substring_drop_app (p s : string) (n m : nat) :
  substring (String.length p + n) m (p ++ s) = substring n m s.
Proof. induction p as [|a p IH]; simpl; [reflexivity | exact IH]. Qed.

(** A replacement text without a dollar sign stands for itself. *)
Lemma getSubstitution_plain (matched before after replacement : string) :
  ~ In "$"%char (list_ascii_of_string replacement) ->
  getSubstitution matched before after replacement = replacement.
Proof.
  induction replacement as [|c r IH]; intros H; [reflexivity|].
  assert (Hc : c <> "$"%char) by (intros ->; apply H; now left).
  assert (Hr : ~ In "$"%char (list_ascii_of_string r))
    by (intros Hin; apply H; now right).
  specialize (IH Hr).
  destruct c as [[] [] [] [] [] [] [] []];
    try (simpl; rewrite IH; reflexivity).
  now elim Hc.
Qed.

(** The tenant placeholder of a template [p/t/:tenantId/registry], where
    [p] has no placeholder of its own, is replaced in place. *)
Lemma replace_tenantId (p t : string) :
  index 0 ":tenantId" p = None ->
  ~ In "$"%char (list_ascii_of_string t) ->
  replace ":tenantId" t ((p ++ "/t/:tenantId") ++ "/registry") =
  p ++ "/t/" ++ t ++ "/registry".
Proof.
  intros Hp Ht. unfold replace.
  rewrite append_assoc. simpl ("/t/:tenantId" ++ "/registry").
  rewrite (index_app_foreign ":tenantId" p "t/:tenantId/registry" "/").
  - replace (index 0 ":tenantId" "/t/:tenantId/registry") with (Some 3)
      by (vm_compute; reflexivity).
    cbn [option_map]. cbv zeta.
    rewrite (getSubstitution_plain _ _ _ t Ht).
    change "/t/:tenantId/registry" with ("/t/" ++ ":tenantId/registry") at 1.
    rewrite substring_take_app.
    rewrite length_append.
    replace (String.length p + 3 + String.length ":tenantId")
      with (String.length p + 12) by (simpl; lia).
    rewrite substring_drop_app.
    replace (String.length p + String.length "/t/:tenantId/registry"
             - (String.length p + 12)) with 9 by (simpl; lia).
    change (substring 0 3 "/t/:tenantId/registry") with "/t/".
    change (substring 12 9 "/t/:tenantId/registry") with "/registry".
    now rewrite append_assoc.
  - simpl. intros H. repeat (destruct H as [H|H]; [discriminate H|]). exact H.
  - exact Hp.
Qed.

End StringFacts.

(** C7. With the tenant id "abc" and a templated base URL that ends in
    [/t/:tenantId] (and has no other placeholder before it), the URL written
    into the [artifacts] section is the template plus [/registry] with the
    placeholder replaced, [.../t/abc/registry], and the navigation prefix
    written into the [ui] section is [/t/abc]; the other properties of both
    sections and of the configuration are kept. A section that the
    configuration lacks is left out of the result as well, the other one
    being filled all the same, and the provider holds the object that is
    returned. *)
Theorem federatedConfig_targets_tenant {A U C : Type}
    (getPathParam : string -> string) (svc : ConfigService A U C)
    (base : string) :
  getPathParam "tenantId" = "abc" ->
  registryApisUrl svc = (base ++ "/t/:tenantId")%string ->
  index 0 ":tenantId" base = None ->
  let config := fst (federatedConfig getPathParam svc) in
  navPath getPathParam = "/t/abc" /\
  (forall a, artifacts (registryConfig svc) = Some a ->
     artifacts config =
       Some (mkArtifacts (Some (base ++ "/t/abc/registry")%string)
                         (artifactsOther a))) /\
  (forall u, ui (registryConfig svc) = Some u ->
     ui config = Some (mkUi (Some "/t/abc") (uiOther u))) /\
  (artifacts (registryConfig svc) = None -> artifacts config = None) /\
  (ui (registryConfig svc) = None -> ui config = None) /\
  configOther config = configOther (registryConfig svc) /\
  registryConfig (snd (federatedConfig getPathParam svc)) = config.
Proof.
  intros Hid Hurl Hbase config. subst config.
  unfold federatedConfig, navPath, tenantId. rewrite Hid, Hurl.
  rewrite (replace_tenantId base "abc" Hbase)
    by (simpl; intros H;
        repeat (destruct H as [H|H]; [discriminate H|]); exact H).
  change ("/t/" ++ "abc" ++ "/registry")%string with "/t/abc/registry".
  change ("/t/" ++ "abc")%string with "/t/abc".
  destruct (registryConfig svc) as [[a|] [u|] other]; cbn;
    repeat split; try discriminate;
    try (intros ? H; inversion H; subst; reflexivity).
Qed.

Lemma federatedConfig_targets_tenant_witness :
  artifacts (fst (federatedConfig (fun _ => "abc") fullService)) =
    Some (mkArtifacts (Some "https://fleet.example.com/t/abc/registry")
                      "rest") /\
  ui (fst (federatedConfig (fun _ => "abc") fullService)) =
    Some (mkUi (Some "/t/abc") "/ui") /\
  artifacts (fst (federatedConfig (fun _ => "abc") bareService)) = None /\
  ui (fst (federatedConfig (fun _ => "abc") bareService)) = None.
Proof.
  destruct (federatedConfig_targets_tenant (fun _ => "abc") fullService
              "https://fleet.example.com" eq_refl eq_refl eq_refl)
    as (_ & Ha & Hu & _).
  destruct (federatedConfig_targets_tenant (fun _ => "abc") bareService
              "https://fleet.example.com" eq_refl eq_refl eq_refl)
    as (_ & _ & _ & Hna & Hnu & _).
  split; [exact (Ha _ eq_refl)|]. split; [exact (Hu _ eq_refl)|].
  split; [exact (Hna eq_refl) | exact (Hnu eq_refl)].
Defined.

(** ** More on the loader *)

Section LoaderFacts.

Context {E X : Type}.

Variable createLoaders : nat -> Loaders E.

(** A load cycle without a failure and without a hanging operation ends the
    loading, in one turn when there is nothing to load and in two
    otherwise. *)
Lemma successful_cycle (w : World E X) (ms turns : nat) :
  allResolve (createLoaders (invocations w)) ->
  2 <= turns ->
  run createLoaders turns (w, Timer ms) =
  (mkWorld (setSingleState (IsLoading false) (state w)) (logger w)
           (S (invocations w)) (timeouts w),
   Idle).
Proof.
  intros Hok Hturns.
  replace turns with (1 + (1 + (turns - 2))) by lia.
  rewrite run_add.
  destruct (operations (createLoaders (invocations w))) as [|p ps] eqn:Hops.
  - simpl run at 2. rewrite (loadPageData_nothing createLoaders w Hops).
    apply run_idle.
  - assert (Hne : operations (createLoaders (invocations w)) <> [])
      by (rewrite Hops; discriminate).
    simpl run at 2. rewrite (loadPageData_enters createLoaders w Hne).
    rewrite run_add. simpl run at 2.
    assert (Hall : Promise_all (operations (createLoaders (invocations w)))
                   = Fulfilled) by now apply Promise_all_fulfilled.
    rewrite Hall. unfold onFulfilled. rewrite run_idle. reflexivity.
Qed.

End LoaderFacts.

(** X1. A load whose operations include one that never settles, and none
    that is rejected, hangs: after the producer's call the page is loading
    with the aggregate promise pending, and it stays exactly so for any
    number of turns - no retry, no timer, no error, no log line. *)
Theorem unsettled_load_hangs {E X : Type}
    (createLoaders : nat -> Loaders E) (w : World E X) (ms turns : nat) :
  Forall (fun p => isRejected p = false)
         (operations (createLoaders (invocations w))) ->
  In NeverSettles (operations (createLoaders (invocations w))) ->
  1 <= turns ->
  run createLoaders turns (w, Timer ms) =
  (mkWorld (setSingleState (IsLoading true) (state w)) (logger w)
           (S (invocations w)) (timeouts w),
   AwaitAll (operations (createLoaders (invocations w)))).
Proof.
  intros Hnorej Hin Hturns.
  assert (Hne : operations (createLoaders (invocations w)) <> [])
    by (intros H; rewrite H in Hin; exact Hin).
  replace turns with (1 + (turns - 1)) by lia.
  rewrite run_add. simpl run at 2.
  rewrite (loadPageData_enters createLoaders w Hne).
  apply run_stuck. cbn [step]. unfold Promise_all.
  apply firstRejection_none in Hnorej. rewrite Hnorej.
  destruct (forallb isResolved (operations (createLoaders (invocations w))))
    eqn:Hall; [|reflexivity].
  rewrite forallb_forall in Hall. specialize (Hall _ Hin). discriminate.
Qed.

Lemma unsettled_load_hangs_witness :
  run hanging 7 (construct blankPage) =
  (mkWorld (PageState.mk None (Some true) None None tt) [] 1 [10],
   AwaitAll [Resolves 1; NeverSettles]).
Proof.
  apply (unsettled_load_hangs hanging (fst (construct blankPage)) 10 7).
  - repeat constructor.
  - right. now left.
  - apply Nat.lt_0_succ.
Defined.

(** X2. A page that keeps the [createLoaders] of [PageComponent] is loaded by
    the first turn of the event loop, with one call of the producer and no
    timer but the start-up one, and nothing happens to it in any later
    turn; the fields of its initial state other than the loading flag are
    as the page set them. *)
Theorem default_loaders_load_at_once {E X : Type}
    (ips : PageState.t E X) (turns : nat) :
  1 <= turns ->
  run createLoaders_default turns (construct ips) =
  (mkWorld (PageState.mk (PageState.pageLoadRetries ips) (Some false)
                         (PageState.isError ips) (PageState.error ips)
                         (PageState.page ips))
           [] 1 [10],
   Idle).
Proof.
  intros Hturns. replace turns with (1 + (turns - 1)) by lia.
  rewrite run_add. apply run_idle.
Qed.

Lemma default_loaders_load_at_once_witness :
  run createLoaders_default 3 (construct presetPage) =
  (mkWorld (PageState.mk (Some 3) (Some false) None None tt) [] 1 [10],
   Idle).
Proof.
  apply (default_loaders_load_at_once presetPage 3). apply Nat.lt_0_succ.
Defined.

(** X3. For every [k] with [r + k <= 5]: a loader at retry count [r] whose
    producer fails on its next [k] calls and whose operations all resolve on
    the call after them ends not loading, with retry count [r + k], after
    [k + 1] calls of the producer and the [k] backoff delays of the counts
    [r] to [r + k - 1]; the error fields are untouched. *)
Theorem success_after_failures {E X : Type}
    (createLoaders : nat -> Loaders E) (w : World E X)
    (ms k turns : nat) :
  getRetries (state w) + k <= MAX_RETRIES ->
  (forall i, i < k ->
     exists e, failsWith (createLoaders (invocations w + i)) e) ->
  allResolve (createLoaders (invocations w + k)) ->
  2 * k + 2 <= turns ->
  exists w' : World E X,
    run createLoaders turns (w, Timer ms) = (w', Idle) /\
    PageState.isLoading (state w') = Some false /\
    getRetries (state w') = getRetries (state w) + k /\
    invocations w' = invocations w + k + 1 /\
    timeouts w' =
      timeouts w ++ map backoff (seq (getRetries (state w)) k) /\
    PageState.isError (state w') = PageState.isError (state w) /\
    PageState.error (state w') = PageState.error (state w) /\
    PageState.page (state w') = PageState.page (state w).
Proof.
  intros Hle Hfail Hok Hturns.
  destruct (retry_chain createLoaders k w ms Hle Hfail)
    as (wk & msk & Hrun & Hr & Hi & Ht & _ & He1 & He2 & Hp).
  rewrite <- Hi in Hok.
  eexists. split.
  - replace turns with (2 * k + (turns - 2 * k)) by lia.
    rewrite run_add, Hrun.
    apply (successful_cycle createLoaders wk msk (turns - 2 * k) Hok). lia.
  - cbn [state invocations timeouts]. rewrite getRetries_setLoading.
    rewrite Hr, Hi, Ht. repeat split; trivial; lia.
Qed.

Lemma success_after_failures_witness :
  exists w' : World string unit,
    run failingTwice 6 (construct blankPage) = (w', Idle) /\
    PageState.isLoading (state w') = Some false /\
    getRetries (state w') = 2 /\
    invocations w' = 3 /\
    timeouts w' = [10; 100; 200] /\
    PageState.isError (state w') = None /\
    PageState.error (state w') = None /\
    PageState.page (state w') = tt.
Proof.
  apply (success_after_failures failingTwice (fst (construct blankPage))
           10 2 6).
  - repeat constructor.
  - intros i Hi. exists "offline".
    do 2 (destruct i as [|i]; [split; [discriminate | reflexivity]|]).
    exfalso. lia.
  - repeat constructor.
  - apply le_n.
Defined.

(** ** Invariants of a page's lifetime *)

Section Lifetime.

Context {E X : Type}.

Variable createLoaders : nat -> Loaders E.

Local Abbreviation C := (World E X * Pending E)%type.

Lemma reaches_invariant (P : C -> Prop) :
  (forall c c', transition createLoaders c c' -> P c -> P c') ->
  forall c c', reaches createLoaders c c' -> P c -> P c'.
Proof.
  intros Hstep c c' Hr. induction Hr as [c | c c1 c2 Ht _ IH]; intros Hc.
  - exact Hc.
  - apply IH. exact (Hstep c c1 Ht Hc).
Qed.

Lemma transition_busyInv (c c' : C) :
  transition createLoaders c c' -> busyInv c -> busyInv c'.
Proof.
  intros [[w p] c2 Hs | err info w p | err msg w p] Hinv;
    [|exact Hinv..].
  destruct p as [|ms|ps]; cbn [step] in Hs.
  - discriminate.
  - inversion Hs; subst. unfold loadPageData, busyInv.
    destruct (createLoaders (invocations w)) as [|q|[|q qs]];
      cbn [fst snd state invocations update setSingleState
           PageState.isLoading length Nat.eqb];
      first [ right; split; [reflexivity | split; [reflexivity | lia]]
            | left; split; [reflexivity | intros; lia] ].
  - destruct Hinv as [[Hl Hps] | (_ & Hidle & _)]; [|discriminate Hidle].
    specialize (Hps ps eq_refl). cbn [fst] in Hl, Hps.
    destruct (Promise_all ps) as [|e|]; inversion Hs; subst.
    + right. repeat split. exact Hps.
    + left. split.
      * rewrite onRejected_keeps_loading. exact Hl.
      * unfold onRejected. cbn [debug state].
        destruct (getRetries (state w) <? MAX_RETRIES);
          cbn [snd setTimeout]; intros qs Hq; discriminate Hq.
Qed.

Lemma transition_countInv (c c' : C) :
  transition createLoaders c c' -> countInv c -> countInv c'.
Proof.
  intros [[w p] c2 Hs | err info w p | err msg w p] Hinv;
    [|exact Hinv..].
  destruct Hinv as [Ht Hi]. cbn [fst snd] in Ht, Hi.
  destruct p as [|ms|ps]; cbn [step] in Hs.
  - discriminate.
  - inversion Hs; subst. unfold loadPageData, countInv.
    destruct (createLoaders (invocations w)) as [|q|[|q qs]];
      cbn [fst snd state invocations timeouts update length Nat.eqb];
      rewrite getRetries_setLoading; (split; [exact Ht | lia]).
  - destruct (Promise_all ps) as [|e|]; inversion Hs; subst.
    + unfold countInv. cbn [onFulfilled fst snd state update invocations
                            timeouts].
      rewrite getRetries_setLoading. split; [exact Ht | exact Hi].
    + destruct (Nat.lt_ge_cases (getRetries (state w)) MAX_RETRIES)
        as [Hlt | Hge].
      * rewrite (onRejected_retry e w Hlt). unfold countInv.
        cbn [fst snd state invocations timeouts].
        rewrite getRetries_incrementRetries, Ht, Nat.add_1_r, seq_S, map_app.
        split; [reflexivity | lia].
      * rewrite (onRejected_giveUp e w Hge). split; [exact Ht | exact Hi].
Qed.

Lemma transition_errorInv (c c' : C) :
  transition createLoaders c c' ->
  errorInv (state (fst c)) -> errorInv (state (fst c')).
Proof.
  intros [[w p] c2 Hs | err info w p | err msg w p] Hinv;
    [|right; split; [reflexivity | discriminate]..].
  cbn [fst] in Hinv.
  destruct p as [|ms|ps]; cbn [step] in Hs.
  - discriminate.
  - inversion Hs; subst. unfold loadPageData.
    destruct (createLoaders (invocations w)) as [|q|[|q qs]]; exact Hinv.
  - destruct (Promise_all ps) as [|e|]; inversion Hs; subst.
    + exact Hinv.
    + unfold onRejected. cbn [debug state].
      destruct (getRetries (state w) <? MAX_RETRIES).
      * exact Hinv.
      * right. split; [reflexivity | discriminate].
Qed.

(** A transition of a component with nothing pending is a fault, which the
    loader does not see. *)
Lemma transition_idle (c c' : C) :
  transition createLoaders c c' -> snd c = Idle ->
  loaderView c' = loaderView c.
Proof.
  intros [[w p] c2 Hs | err info w p | err msg w p] Hidle;
    [|reflexivity..].
  cbn [snd] in Hidle. subst p. discriminate Hs.
Qed.

(** The next turn of the loop looks the same to the loader from any two
    components that look the same to it. *)
Lemma step_loaderView (c1 c2 : C) :
  loaderView c1 = loaderView c2 ->
  option_map loaderView (step createLoaders c1) =
  option_map loaderView (step createLoaders c2).
Proof.
  destruct c1 as [[[r1 l1 f1 e1 g1] lg1 i1 t1] p1].
  destruct c2 as [[[r2 l2 f2 e2 g2] lg2 i2 t2] p2].
  unfold loaderView. cbn [fst snd state invocations timeouts
    PageState.pageLoadRetries PageState.isLoading].
  intros H. inversion H; subst. clear H.
  destruct p2 as [|ms|ps]; cbn [step option_map].
  - reflexivity.
  - unfold loadPageData. cbn [invocations].
    destruct (createLoaders i2) as [|q|[|q qs]]; reflexivity.
  - destruct (Promise_all ps) as [|e|]; cbn [option_map].
    + reflexivity.
    + unfold onRejected, getRetries.
      cbn [debug state PageState.pageLoadRetries].
      destruct (match r2 with Some n => n | None => 0 end <? MAX_RETRIES);
        reflexivity.
    + reflexivity.
Qed.

Lemma run_loaderView (n : nat) (c1 c2 : C) :
  loaderView c1 = loaderView c2 ->
  loaderView (run createLoaders n c1) = loaderView (run createLoaders n c2).
Proof.
  revert c1 c2. induction n as [|n IH]; intros c1 c2 H; [exact H|].
  pose proof (step_loaderView c1 c2 H) as Hs. cbn [run].
  destruct (step createLoaders c1) as [d1|], (step createLoaders c2) as [d2|];
    cbn [option_map] in Hs; try discriminate Hs.
  - apply IH. congruence.
  - exact H.
Qed.

End Lifetime.

(** X4. The page's own content is rendered only when the loader has
    finished: whenever [render] hands over to [renderPage], in any state of
    a page's lifetime, nothing is pending, the producer has been called, the
    loading flag has been cleared and no error is flagged. *)
Theorem page_rendered_only_when_loaded {E X : Type}
    (createLoaders : nat -> Loaders E) (ips : PageState.t E X)
    (c : World E X * Pending E) (st : PageState.t E X) :
  reaches createLoaders (construct ips) c ->
  render (state (fst c)) = RenderPage st ->
  st = state (fst c) /\
  snd c = Idle /\
  1 <= invocations (fst c) /\
  PageState.isLoading (state (fst c)) = Some false /\
  isError (state (fst c)) = false.
Proof.
  intros Hr Hrender.
  assert (Hinv : busyInv c).
  { apply (reaches_invariant createLoaders busyInv
             (transition_busyInv createLoaders) _ _ Hr).
    left. split; [reflexivity | intros ps Hps; discriminate Hps]. }
  unfold render in Hrender.
  destruct (isError (state (fst c))) eqn:Herr; [discriminate Hrender|].
  destruct Hinv as [[Hl _] | (Hl & Hidle & Hcalls)].
  - rewrite Hl in Hrender. discriminate Hrender.
  - rewrite Hl in Hrender. cbn [truthy] in Hrender.
    inversion Hrender. repeat split; trivial.
Qed.

Lemma page_rendered_only_when_loaded_witness :
  let c := run failingTwice 6 (construct blankPage) in
  snd c = Idle /\
  1 <= invocations (fst c) /\
  PageState.isLoading (state (fst c)) = Some false.
Proof.
  intros c.
  destruct (page_rendered_only_when_loaded failingTwice blankPage c
              (state (fst c)) (run_reaches failingTwice 6 (construct blankPage))
              eq_refl)
    as (_ & H1 & H2 & H3 & _).
  split; [exact H1 | split; [exact H2 | exact H3]].
Defined.

(** X5. A loader with nothing pending stays as it is: whatever happens to
    the component afterwards, the producer is not called again, no timer is
    armed, and the retry count and the loading flag keep their values. In
    particular a page that has been loaded is never put back to loading,
    and a loader that has given up never tries again. *)
Theorem idle_loader_stays_idle {E X : Type}
    (createLoaders : nat -> Loaders E) (w : World E X)
    (c : World E X * Pending E) :
  reaches createLoaders (w, Idle) c ->
  snd c = Idle /\
  invocations (fst c) = invocations w /\
  timeouts (fst c) = timeouts w /\
  PageState.pageLoadRetries (state (fst c)) =
    PageState.pageLoadRetries (state w) /\
  PageState.isLoading (state (fst c)) = PageState.isLoading (state w).
Proof.
  intros Hr.
  assert (Hv : loaderView c = loaderView (w, Idle)).
  { apply (reaches_invariant createLoaders
             (fun d => loaderView d = loaderView (w, Idle))) with (c := (w, Idle));
      [|exact Hr | reflexivity].
    intros d d' Ht Hd. rewrite <- Hd.
    apply (transition_idle createLoaders d d' Ht).
    unfold loaderView in Hd. now inversion Hd. }
  unfold loaderView in Hv. cbn [fst snd] in Hv. inversion Hv.
  repeat split; reflexivity.
Qed.

Lemma idle_loader_stays_idle_witness :
  let w := fst (run noLoaders 1 (construct blankPage)) in
  let c := (componentDidCatch "boom" (Build_ErrorInfo "at Page") w,
            @Idle string) in
  snd c = Idle /\
  invocations (fst c) = 1 /\
  timeouts (fst c) = [10] /\
  PageState.isLoading (state (fst c)) = Some false.
Proof.
  intros w c.
  destruct (idle_loader_stays_idle noLoaders w c) as (H1 & H2 & H3 & _ & H4).
  - eapply Relation_Operators.rt1n_trans;
      [apply RenderFault | apply Relation_Operators.rt1n_refl].
  - split; [exact H1 | split; [exact H2 | split; [exact H3 | exact H4]]].
Defined.

(** X6. Over the lifetime of a page that starts with retry count 0, the
    timers armed are the 10 ms start-up timer followed by one backoff timer
    per retry made so far, in order; the producer has been called at most
    once more than there were retries, so at most 6 times; and the delays
    of all the timers add up to at most 3110 ms. Faults handled on the way
    change none of this. *)
Theorem lifetime_calls_and_delays {E X : Type}
    (createLoaders : nat -> Loaders E) (ips : PageState.t E X)
    (c : World E X * Pending E) :
  getRetries ips = 0 ->
  reaches createLoaders (construct ips) c ->
  timeouts (fst c) =
    10 :: map backoff (seq 0 (getRetries (state (fst c)))) /\
  invocations (fst c) <= getRetries (state (fst c)) + 1 /\
  invocations (fst c) <= 6 /\
  list_sum (timeouts (fst c)) <= 3110.
Proof.
  intros H0 Hr.
  assert (Hinv : countInv c).
  { apply (reaches_invariant createLoaders countInv
             (transition_countInv createLoaders) _ _ Hr).
    unfold countInv. cbn [construct setTimeout fst snd state timeouts
                          invocations app].
    change (getRetries (initializeState ips)) with (getRetries ips).
    rewrite H0. split; reflexivity. }
  destruct (reaches_retries createLoaders _ _ Hr) as [_ Hmax].
  change (getRetries (state (fst (construct ips)))) with (getRetries ips)
    in Hmax.
  rewrite H0 in Hmax. unfold MAX_RETRIES in Hmax. cbn [Nat.max] in Hmax.
  destruct Hinv as [Ht Hi].
  assert (Hcalls : invocations (fst c) <= getRetries (state (fst c)) + 1)
    by (rewrite Hi; destruct (snd c); lia).
  split; [exact Ht|]. split; [exact Hcalls|]. split; [lia|].
  rewrite Ht.
  destruct (getRetries (state (fst c))) as [|[|[|[|[|[|n]]]]]];
    [vm_compute; lia..|lia].
Qed.

Lemma lifetime_calls_and_delays_witness :
  let c := run alwaysFailing 12 (construct blankPage) in
  timeouts (fst c) =
    10 :: map backoff (seq 0 (getRetries (state (fst c)))) /\
  invocations (fst c) <= 6 /\
  list_sum (timeouts (fst c)) <= 3110.
Proof.
  intros c.
  destruct (lifetime_calls_and_delays alwaysFailing blankPage c eq_refl
              (run_reaches alwaysFailing 12 (construct blankPage)))
    as (H1 & _ & H2 & H3).
  split; [exact H1 | split; [exact H2 | exact H3]].
Defined.

(** X7. Over the lifetime of a page that starts without error fields, the
    error flag and the error record go together: either no error is flagged
    and none is recorded, or the error page is shown and it is given a
    record. The error page is never rendered without an error. *)
Theorem error_page_has_record {E X : Type}
    (createLoaders : nat -> Loaders E) (ips : PageState.t E X)
    (c : World E X * Pending E) :
  PageState.isError ips = None ->
  PageState.error ips = None ->
  reaches createLoaders (construct ips) c ->
  (isError (state (fst c)) = false /\
   PageState.error (state (fst c)) = None /\
   forall e, render (state (fst c)) <> ErrorPage X e) \/
  (exists pe,
     PageState.error (state (fst c)) = Some pe /\
     render (state (fst c)) = ErrorPage X (Some pe)).
Proof.
  intros Hf He Hr.
  assert (Hinv : errorInv (state (fst c))).
  { apply (reaches_invariant createLoaders
             (fun d => errorInv (state (fst d)))
             (transition_errorInv createLoaders) _ _ Hr).
    left. split; [exact Hf | exact He]. }
  unfold render, isError.
  destruct Hinv as [[H1 H2] | [H1 H2]]; rewrite H1; cbn [truthy].
  - left. split; [reflexivity|]. split; [exact H2|].
    intros e. destruct (truthy (PageState.isLoading (state (fst c))));
      discriminate.
  - right. destruct (PageState.error (state (fst c))) as [pe|];
      [now exists pe | now elim H2].
Qed.

Lemma error_page_has_record_witness :
  let c := run alwaysFailing 12 (construct blankPage) in
  exists pe,
    PageState.error (state (fst c)) = Some pe /\
    render (state (fst c)) = ErrorPage unit (Some pe).
Proof.
  intros c.
  destruct (error_page_has_record alwaysFailing blankPage c eq_refl eq_refl
              (run_reaches alwaysFailing 12 (construct blankPage)))
    as [(H & _) | H].
  - exfalso.
    assert (Hc : isError (state (fst c)) = true) by (vm_compute; reflexivity).
    rewrite Hc in H. discriminate H.
  - exact H.
Defined.

(** X8. A fault handled while a load is under way - a fault of the
    presentation layer or a server error the page reports - neither cancels
    nor alters the load: over any number of turns the calls of the
    producer, the retry count, the timers, the loading flag and the pending
    callback are what they would have been without the fault. *)
Theorem fault_does_not_stop_the_loader {E X : Type}
    (createLoaders : nat -> Loaders E) (errorType : PageErrorType)
    (err : E) (errorMessage : Message) (w : World E X) (p : Pending E)
    (turns : nat) :
  loaderView (run createLoaders turns
                (handleError errorType err errorMessage w, p)) =
  loaderView (run createLoaders turns (w, p)).
Proof. apply run_loaderView. reflexivity. Qed.

Section GiveUp.

Context {E X : Type}.

Variable createLoaders : nat -> Loaders E.

Local Abbreviation C := (World E X * Pending E)%type.

Lemma step_loopInv (c c' : C) :
  step createLoaders c = Some c' ->
  loopInv createLoaders c -> loopInv createLoaders c'.
Proof.
  intros Hs (Hbusy & Hcount & Hmax & Hops & Herr).
  pose proof (@TurnOfLoop _ _ createLoaders c c' Hs) as Ht.
  pose proof (transition_busyInv createLoaders c c' Ht Hbusy) as Hbusy'.
  pose proof (transition_countInv createLoaders c c' Ht Hcount) as Hcount'.
  assert (Hmax' : getRetries (state (fst c')) <= 5).
  { destruct (transition_retries createLoaders c c' Ht) as [Heq | [Hlt Heq]];
      rewrite Heq; [exact Hmax | unfold MAX_RETRIES in Hlt; lia]. }
  split; [exact Hbusy'|]. split; [exact Hcount'|]. split; [exact Hmax'|].
  destruct c as [w p]. cbn [fst snd] in *.
  destruct p as [|ms|ps]; cbn [step] in Hs.
  - discriminate.
  - inversion Hs; subst. clear Hs.
    destruct Herr as [Hnone | (Hidle & _)]; [|discriminate Hidle].
    destruct (operations (createLoaders (invocations w))) as [|q qs] eqn:Ho.
    + rewrite (loadPageData_nothing createLoaders w Ho). cbn [fst snd state].
      split; [intros ps Hps; discriminate Hps | left; exact Hnone].
    + assert (Hne : operations (createLoaders (invocations w)) <> [])
        by (rewrite Ho; discriminate).
      rewrite (loadPageData_enters createLoaders w Hne).
      cbn [fst snd state invocations]. split; [|left; exact Hnone].
      intros ps Hps. inversion Hps. rewrite Nat.sub_1_r. cbn [Nat.pred].
      split; [reflexivity | exact Hne].
  - destruct Herr as [Hnone | (Hidle & _)]; [|discriminate Hidle].
    destruct (Hops ps eq_refl) as [Hps Hne].
    destruct Hbusy as [[Hl _] | (_ & Hidle & _)]; [|discriminate Hidle].
    destruct Hcount as [_ Hi]. cbn [fst snd] in Hl, Hi.
    destruct (Promise_all ps) as [|e|] eqn:Hall; inversion Hs; subst c'.
    + cbn [onFulfilled fst snd]. split; [intros qs Hq; discriminate Hq|].
      left. exact Hnone.
    + destruct (Nat.lt_ge_cases (getRetries (state w)) MAX_RETRIES)
        as [Hlt | Hge].
      * rewrite (onRejected_retry e w Hlt). cbn [fst snd state].
        split; [intros qs Hq; discriminate Hq|]. left. exact Hnone.
      * rewrite (onRejected_giveUp e w Hge). cbn [fst snd].
        split; [intros qs Hq; discriminate Hq|]. right.
        unfold MAX_RETRIES in Hge.
        assert (Hfive : getRetries (state w) = 5) by lia.
        split; [reflexivity|]. split; [exact Hfive|]. split; [exact Hl|].
        exists e. split; [|reflexivity].
        rewrite Hi, Hfive in Hps. cbn in Hps.
        split; [rewrite <- Hps; exact Hne | rewrite <- Hps; exact Hall].
Qed.

Lemma run_loopInv (n : nat) (c : C) :
  loopInv createLoaders c -> loopInv createLoaders (run createLoaders n c).
Proof.
  revert c. induction n as [|n IH]; intros c Hc; [exact Hc|]. cbn [run].
  destruct (step createLoaders c) as [c'|] eqn:Hs; [|exact Hc].
  apply IH. exact (step_loopInv c c' Hs Hc).
Qed.

End GiveUp.

(** X9. Left to the event loop, a page that starts without load state of
    its own shows an error only when the loader has run out of retries:
    from an error flag after any number of turns it follows that nothing is
    pending, that the producer has been called 6 times and the five backoff
    timers armed, that the record holds the first rejection of the
    producer's sixth call with the message "Error loading page data.", and
    that the loading flag is still set behind the error page. *)
Theorem loader_error_means_exhausted {E X : Type}
    (createLoaders : nat -> Loaders E) (ips : PageState.t E X)
    (turns : nat) :
  leavesLoadStateUnset ips ->
  isError (state (fst (run createLoaders turns (construct ips)))) = true ->
  snd (run createLoaders turns (construct ips)) = Idle /\
  getRetries (state (fst (run createLoaders turns (construct ips)))) = 5 /\
  invocations (fst (run createLoaders turns (construct ips))) = 6 /\
  timeouts (fst (run createLoaders turns (construct ips))) =
    [10; 100; 200; 400; 800; 1600] /\
  PageState.isLoading
    (state (fst (run createLoaders turns (construct ips)))) = Some true /\
  exists e,
    failsWith (createLoaders 5) e /\
    PageState.error
      (state (fst (run createLoaders turns (construct ips)))) =
      Some (PageError.mk e (Text "Error loading page data.") Server).
Proof.
  intros (Hr & Hf & He) Herr.
  assert (Hinit : loopInv createLoaders (construct ips)).
  { unfold loopInv, busyInv, countInv.
    cbn [construct setTimeout fst snd state timeouts invocations app].
    change (getRetries (initializeState ips)) with (getRetries ips).
    unfold getRetries. rewrite Hr.
    split; [left; split; [reflexivity | intros ps Hps; discriminate Hps]|].
    split; [split; reflexivity|]. split; [lia|].
    split; [intros ps Hps; discriminate Hps|].
    left. split; [exact Hf | exact He]. }
  pose proof (run_loopInv createLoaders turns (construct ips) Hinit) as Hinv.
  destruct Hinv as (_ & [Ht Hi] & _ & _ & [[Hnone _] | (Hidle & H5 & Hl & Hex)]).
  - unfold isError in Herr. rewrite Hnone in Herr. discriminate Herr.
  - rewrite Hidle, H5 in Hi. rewrite H5 in Ht.
    split; [exact Hidle|]. split; [exact H5|]. split; [exact Hi|].
    split; [exact Ht|]. split; [exact Hl | exact Hex].
Qed.

Lemma loader_error_means_exhausted_witness :
  snd (run alwaysFailing 15 (construct blankPage)) = Idle /\
  invocations (fst (run alwaysFailing 15 (construct blankPage))) = 6.
Proof.
  assert (Hu : leavesLoadStateUnset blankPage)
    by (split; [reflexivity | split; reflexivity]).
  assert (He : isError (state (fst (run alwaysFailing 15
                                      (construct blankPage)))) = true)
    by (vm_compute; reflexivity).
  destruct (loader_error_means_exhausted alwaysFailing blankPage 15 Hu He)
    as (H1 & _ & H2 & _).
  split; [exact H1 | exact H2].
Defined.

(** ** More on the tenant-scoped configuration *)

Section PlaceholderFacts.

Local Open Scope string_scope.

Local Transparent prefix.

Lemma append_nil_r (s : string) : s ++ "" = s.
Proof. induction s as [|a s IH]; simpl; [reflexivity | now rewrite IH]. Qed.

Lemma substring_all (s : string) : substring 0 (String.length s) s = s.
Proof. induction s as [|a s IH]; simpl; [reflexivity | now rewrite IH]. Qed.

(** A pattern whose first character occurs nowhere else in it cannot start
    inside a non-empty [p] it does not start, when [p] is followed by that
    character. *)
Lemma prefix_app_head (a b c : ascii) (pat p r : string) :
  ~ In c (list_ascii_of_string pat) ->
  prefix (String a pat) (String b p) = false ->
  prefix (String a pat) (String b p ++ String c r) = false.
Proof.
  intros Hc Hp. cbn [append]. rewrite prefix_cons in Hp |- *.
  destruct (ascii_dec a b); [|reflexivity].
  exact (prefix_app_foreign pat p r c Hc Hp).
Qed.

Lemma index_app_head (a c : ascii) (pat p r : string) :
  ~ In c (list_ascii_of_string pat) ->
  index 0 (String a pat) p = None ->
  index 0 (String a pat) (p ++ String c r) =
  option_map (Nat.add (String.length p))
             (index 0 (String a pat) (String c r)).
Proof.
  intros Hc. remember (index 0 (String a pat) (String c r)) as k eqn:Hk.
  induction p as [|b p IH]; intros Hp.
  - cbn [append String.length]. rewrite <- Hk. now destruct k.
  - rewrite index_cons in Hp.
    destruct (prefix (String a pat) (String b p)) eqn:Hpre; [discriminate|].
    pose proof (prefix_app_head a b c pat p r Hc Hpre) as Hx.
    cbn [append] in Hx |- *. rewrite index_cons, Hx.
    destruct (index 0 (String a pat) p) as [n|] eqn:Hi; [discriminate|].
    rewrite (IH eq_refl). now destruct k.
Qed.

(** Where the first placeholder of a template is. *)
Lemma index_tenantId (base rest : string) :
  index 0 ":tenantId" base = None ->
  index 0 ":tenantId" (base ++ ":tenantId" ++ rest) =
  Some (String.length base).
Proof.
  intros Hbase.
  change (":tenantId" ++ rest) with (String ":" ("tenantId" ++ rest)).
  rewrite (index_app_head ":" ":" "tenantId" base ("tenantId" ++ rest)).
  - rewrite index_cons. cbn [append]. rewrite !prefix_cons. cbn.
    rewrite prefix_nil_l. cbn [option_map]. now rewrite Nat.add_0_r.
  - simpl. intros H. repeat (destruct H as [H|H]; [discriminate H|]). exact H.
  - exact Hbase.
Qed.

(** [replace] on a template: the text up to the first placeholder and the
    text after it are kept, whatever the latter contains. *)
Lemma replace_first_placeholder (base rest t : string) :
  index 0 ":tenantId" base = None ->
  replace ":tenantId" t (base ++ ":tenantId" ++ rest) =
  base ++ getSubstitution ":tenantId" base rest t ++ rest.
Proof.
  intros Hbase. unfold replace. rewrite (index_tenantId base rest Hbase).
  cbv zeta.
  assert (Hpre : substring 0 (String.length base)
                   (base ++ ":tenantId" ++ rest) = base).
  { rewrite <- (Nat.add_0_r (String.length base)).
    rewrite substring_take_app. cbn [substring]. apply append_nil_r. }
  rewrite !Hpre, !length_append.
  replace (String.length base
           + (String.length ":tenantId" + String.length rest)
           - (String.length base + String.length ":tenantId"))
    with (String.length rest) by lia.
  rewrite substring_drop_app.
  change (String.length ":tenantId") with (String.length ":tenantId" + 0).
  rewrite substring_drop_app, substring_all. reflexivity.
Qed.

(** Text without a dollar sign at the head of a replacement stands for
    itself. *)
Lemma getSubstitution_app_plain (matched before after u s : string) :
  ~ In "$"%char (list_ascii_of_string u) ->
  getSubstitution matched before after (u ++ s) =
  u ++ getSubstitution matched before after s.
Proof.
  induction u as [|c u IH]; intros H; [reflexivity|].
  assert (Hc : c <> "$"%char) by (intros ->; apply H; now left).
  assert (Hu : ~ In "$"%char (list_ascii_of_string u))
    by (intros Hin; apply H; now right).
  specialize (IH Hu). cbn [append].
  destruct c as [[] [] [] [] [] [] [] []];
    try (cbn [getSubstitution]; rewrite IH; reflexivity).
  now elim Hc.
Qed.

End PlaceholderFacts.

(** X10. Only the first placeholder of the template is replaced: when the
    templated base URL reads [base:tenantId rest] with no placeholder in
    [base], and the tenant id has no dollar sign, the URL written into the
    [artifacts] section is [base], the tenant id, [rest] and [/registry],
    whatever [rest] contains - a second placeholder stays as it is. *)
Theorem first_placeholder_only {A U C : Type}
    (getPathParam : string -> string) (svc : ConfigService A U C)
    (base rest : string) (a : ArtifactsConfig A) :
  registryApisUrl svc = (base ++ ":tenantId" ++ rest)%string ->
  index 0 ":tenantId" base = None ->
  ~ In "$"%char (list_ascii_of_string (getPathParam "tenantId")) ->
  artifacts (registryConfig svc) = Some a ->
  artifacts (fst (federatedConfig getPathParam svc)) =
  Some (mkArtifacts
          (Some (base ++ getPathParam "tenantId" ++ rest ++ "/registry")%string)
          (artifactsOther a)).
Proof.
  intros Hurl Hbase Hid Ha.
  unfold federatedConfig, tenantId. rewrite Hurl, !append_assoc.
  rewrite (replace_first_placeholder base _ _ Hbase).
  rewrite (getSubstitution_plain _ _ _ _ Hid).
  destruct (registryConfig svc) as [oa [u|] other];
    cbn in Ha |- *; rewrite Ha; reflexivity.
Qed.

Lemma first_placeholder_only_witness :
  artifacts (fst (federatedConfig (fun _ => "abc") twoPlaceholders)) =
  Some (mkArtifacts
          (Some "https://abc.example.com/t/:tenantId/registry") "rest").
Proof.
  apply (first_placeholder_only (fun _ => "abc") twoPlaceholders
           "https://" ".example.com/t/:tenantId"
           (mkArtifacts None "rest")).
  - reflexivity.
  - reflexivity.
  - simpl. intros H. repeat (destruct H as [H|H]; [discriminate H|]). exact H.
  - reflexivity.
Defined.

(** X11. When the templated base URL has no placeholder, the tenant is not
    in the derived URL at all: every tenant gets the base URL followed by
    [/registry], while the navigation prefix still names the tenant. *)
Theorem template_without_placeholder {A U C : Type}
    (getPathParam : string -> string) (svc : ConfigService A U C)
    (a : ArtifactsConfig A) (u : UiConfig U) :
  index 0 ":tenantId" (registryApisUrl svc) = None ->
  artifacts (registryConfig svc) = Some a ->
  ui (registryConfig svc) = Some u ->
  artifacts (fst (federatedConfig getPathParam svc)) =
    Some (mkArtifacts (Some (registryApisUrl svc ++ "/registry")%string)
                      (artifactsOther a)) /\
  ui (fst (federatedConfig getPathParam svc)) =
    Some (mkUi (Some ("/t/" ++ getPathParam "tenantId")%string) (uiOther u)).
Proof.
  intros Hnone Ha Hu.
  assert (Hidx : index 0 ":tenantId"
                   (registryApisUrl svc ++ "/registry")%string = None).
  { rewrite (index_app_foreign ":tenantId" (registryApisUrl svc)
               "registry" "/").
    - reflexivity.
    - simpl. intros H.
      repeat (destruct H as [H|H]; [discriminate H|]). exact H.
    - exact Hnone. }
  unfold federatedConfig, navPath, tenantId, replace. rewrite Hidx.
  destruct (registryConfig svc) as [oa ou other].
  cbn in Ha, Hu |- *. rewrite Ha. cbn. rewrite Hu. split; reflexivity.
Qed.

Lemma template_without_placeholder_witness :
  artifacts (fst (federatedConfig (fun _ => "abc") noPlaceholder)) =
    Some (mkArtifacts (Some "https://registry.example.com/apis/registry")
                      "rest") /\
  ui (fst (federatedConfig (fun _ => "abc") noPlaceholder)) =
    Some (mkUi (Some "/t/abc") "/ui").
Proof.
  apply (template_without_placeholder (fun _ => "abc") noPlaceholder
           (mkArtifacts None "rest") (mkUi None "/ui"));
    reflexivity.
Defined.

(** X12. The derived configuration depends on the provider's template, on
    the properties [federatedConfig] does not write and on the current
    tenant only: deriving it for one tenant and then, from the provider as
    the first call left it, for another gives what the second derivation
    alone gives, with the provider holding it. In particular deriving twice
    for the same tenant changes nothing. *)
Theorem federatedConfig_last_tenant_wins {A U C : Type}
    (first second : string -> string) (svc : ConfigService A U C) :
  federatedConfig second (snd (federatedConfig first svc)) =
  federatedConfig second svc.
Proof.
  destruct svc as [[[a|] [u|] other] template]; reflexivity.
Qed.

(** X13. A dollar sign in the tenant id is read as a replacement pattern in
    the URL but not in the navigation prefix. With a template
    [base:tenantId rest] ([base] without placeholder) and [u], [v] free of
    dollar signs: the tenant id [u$$v] gives the URL of the tenant [u$v],
    and the tenant id [u$&v] puts the placeholder back between [u] and
    [v]; in both cases the navigation prefix has the tenant id as it
    is. *)
Theorem dollar_patterns_in_tenant_id {A U C : Type}
    (getPathParam : string -> string) (svc : ConfigService A U C)
    (base rest u v : string) (a : ArtifactsConfig A) :
  registryApisUrl svc = (base ++ ":tenantId" ++ rest)%string ->
  index 0 ":tenantId" base = None ->
  ~ In "$"%char (list_ascii_of_string u) ->
  ~ In "$"%char (list_ascii_of_string v) ->
  artifacts (registryConfig svc) = Some a ->
  navPath getPathParam = ("/t/" ++ getPathParam "tenantId")%string /\
  (getPathParam "tenantId" = (u ++ "$$" ++ v)%string ->
   artifacts (fst (federatedConfig getPathParam svc)) =
   Some (mkArtifacts
           (Some (base ++ (u ++ "$" ++ v) ++ rest ++ "/registry")%string)
           (artifactsOther a))) /\
  (getPathParam "tenantId" = (u ++ "$&" ++ v)%string ->
   artifacts (fst (federatedConfig getPathParam svc)) =
   Some (mkArtifacts
           (Some (base ++ (u ++ ":tenantId" ++ v) ++ rest
                       ++ "/registry")%string)
           (artifactsOther a))).
Proof.
  intros Hurl Hbase Hu Hv Ha. split; [reflexivity|].
  split; intros Hid; unfold federatedConfig, tenantId;
    rewrite Hid, Hurl;
    rewrite (append_assoc base (":tenantId" ++ rest) "/registry");
    rewrite (append_assoc ":tenantId" rest "/registry");
    rewrite (replace_first_placeholder base _ _ Hbase);
    rewrite (getSubstitution_app_plain _ _ _ u _ Hu);
    cbn [append getSubstitution];
    rewrite (getSubstitution_plain _ _ _ v Hv);
    destruct (registryConfig svc) as [oa [w|] other];
    cbn in Ha |- *; rewrite Ha; reflexivity.
Qed.

Lemma dollar_patterns_in_tenant_id_witness :
  artifacts (fst (federatedConfig (fun _ => "a$$b") fullService)) =
    Some (mkArtifacts (Some "https://fleet.example.com/t/a$b/registry")
                      "rest") /\
  ui (fst (federatedConfig (fun _ => "a$$b") fullService)) =
    Some (mkUi (Some "/t/a$$b") "/ui") /\
  artifacts (fst (federatedConfig (fun _ => "$&") fullService)) =
    Some (mkArtifacts
            (Some "https://fleet.example.com/t/:tenantId/registry") "rest").
Proof.
  assert (Hplain : forall s, s = "a" \/ s = "b" \/ s = "" ->
            ~ In "$"%char (list_ascii_of_string s)).
  { intros s [-> | [-> | ->]]; simpl; intros H;
      repeat (destruct H as [H|H]; [discriminate H|]); exact H. }
  destruct (dollar_patterns_in_tenant_id (fun _ => "a$$b") fullService
              "https://fleet.example.com/t/" "" "a" "b"
              (mkArtifacts (Some "http://localhost:8080/apis/registry")
                           "rest")
              eq_refl eq_refl (Hplain "a" (or_introl eq_refl))
              (Hplain "b" (or_intror (or_introl eq_refl))) eq_refl)
    as (_ & H1 & _).
  destruct (dollar_patterns_in_tenant_id (fun _ => "$&") fullService
              "https://fleet.example.com/t/" "" "" ""
              (mkArtifacts (Some "http://localhost:8080/apis/registry")
                           "rest")
              eq_refl eq_refl (Hplain "" (or_intror (or_intror eq_refl)))
              (Hplain "" (or_intror (or_intror eq_refl))) eq_refl)
    as (_ & _ & H2).
  split; [exact (H1 eq_refl)|]. split; [reflexivity | exact (H2 eq_refl)].
Defined.
